(** * bindy: a shallow embedding of the BIND9 operator's reconciliation code

    The development follows the Python sources module by module:
    [operator/utils/validation.py], [operator/config/templates.py],
    [operator/config/bind9.py], [operator/kubernetes/resources.py],
    [operator/handlers/*.py] and [operator/utils/dns.py].

    Conventions of the embedding.
    - A Python [str] is a [string]; each [ascii] stands for the code point
      of the same number, so the model covers the strings whose code
      points are below 256.
    - A value of type [Any] read from a resource spec is a [value]: the
      JSON shapes without floating-point numbers.  A [dict] is an
      association list in insertion order.
    - A function that can raise returns a [res]; a function with effects on
      the cluster or on the log runs in the monad [M] over a [world]. *)

From Stdlib Require Import ZArith String Ascii List Lia Bool DecimalString DecimalPos.
From stdpp Require Import gmap strings.
Import ListNotations.
Local Open Scope Z_scope.

(** ** Strings *)

(** The double quote, as a one-character string. *)
Definition dq : string := String (ascii_of_nat 34) "".

(** The line feed, as a character. *)
Definition LF : ascii := ascii_of_nat 10.

(** [sep.join(items)]. *)
Fixpoint str_join (sep : string) (items : list string) : string :=
  match items with
  | [] => ""
  | [s] => s
  | s :: rest => s +:+ sep +:+ str_join sep rest
  end.

(** [s.replace(old, new)] for a one-character [old]. *)
Fixpoint str_replace_char (old : ascii) (new : string) (s : string) : string :=
  match s with
  | "" => ""
  | String c s' =>
      if Ascii.eqb c old then new +:+ str_replace_char old new s'
      else String c (str_replace_char old new s')
  end.

(** [needle in hay] on [str]. *)
Fixpoint str_in (needle hay : string) : bool :=
  String.prefix needle hay ||
  match hay with
  | "" => false
  | String _ hay' => str_in needle hay'
  end.

Fixpoint str_rev (s : string) : string :=
  match s with
  | "" => ""
  | String c s' => str_rev s' +:+ String c ""
  end.

(** [s.endswith(suffix)]. *)
Definition str_endswith (s suffix : string) : bool :=
  String.prefix (str_rev suffix) (str_rev s).

(** The characters of a string, each as a one-character string: what
    iterating over a [str] yields. *)
Fixpoint str_chars (s : string) : list string :=
  match s with
  | "" => []
  | String c s' => String c "" :: str_chars s'
  end.

(** ** Values of type [Any] *)

#[warnings="-register-all"]
Inductive value : Type :=
| VNone
| VBool (b : bool)
| VInt (n : Z)
| VStr (s : string)
| VList (items : list value)
| VDict (entries : list (string * value)).

Definition dict : Type := list (string * value).

(** [d.get(key)], [None] when the key is absent. *)
Fixpoint dict_lookup (d : dict) (key : string) : option value :=
  match d with
  | [] => None
  | (k, v) :: d' => if String.eqb k key then Some v else dict_lookup d' key
  end.

(** [d.get(key, default)]. *)
Definition dict_get (d : dict) (key : string) (default : value) : value :=
  match dict_lookup d key with
  | Some v => v
  | None => default
  end.

(** [key in d]. *)
Definition dict_has (d : dict) (key : string) : bool :=
  match dict_lookup d key with
  | Some _ => true
  | None => false
  end.

(** Truth value of an object, as [if v], [not v] and [any] take it. *)
Definition truthy (v : value) : bool :=
  match v with
  | VNone => false
  | VBool b => b
  | VInt n => negb (n =? 0)
  | VStr s => negb (String.eqb s "")
  | VList items => match items with [] => false | _ => true end
  | VDict entries => match entries with [] => false | _ => true end
  end.

(** *** [str] and [repr] *)

Definition hex_digit (n : nat) : ascii :=
  match n with
  | 0 => "0" | 1 => "1" | 2 => "2" | 3 => "3" | 4 => "4" | 5 => "5"
  | 6 => "6" | 7 => "7" | 8 => "8" | 9 => "9" | 10 => "a" | 11 => "b"
  | 12 => "c" | 13 => "d" | 14 => "e" | _ => "f"
  end%char%nat.

(** Code points below 256 that [repr] writes as they are. *)
Definition printable (c : ascii) : bool :=
  let n := nat_of_ascii c in
  ((32 <=? n) && (n <? 127) || (161 <=? n) && negb (n =? 173))%nat.

Definition repr_char (quote c : ascii) : string :=
  if Ascii.eqb c quote || Ascii.eqb c "\"
  then String "\" (String c "")
  else if Ascii.eqb c (ascii_of_nat 9) then "\t"
  else if Ascii.eqb c (ascii_of_nat 10) then "\n"
  else if Ascii.eqb c (ascii_of_nat 13) then "\r"
  else if printable c then String c ""
  else let n := nat_of_ascii c in
       String "\" (String "x" (String (hex_digit (n / 16)) (String (hex_digit (n mod 16)) ""))).

Fixpoint repr_body (quote : ascii) (s : string) : string :=
  match s with
  | "" => ""
  | String c s' => repr_char quote c +:+ repr_body quote s'
  end.

(** [repr(s)] for a [str]: single quotes, unless the text holds a single
    quote and no double quote. *)
Definition repr_str (s : string) : string :=
  let quote := if str_in "'" s && negb (str_in dq s) then ascii_of_nat 34 else "'"%char in
  String quote (repr_body quote s) +:+ String quote "".

Definition str_of_int (n : Z) : string := NilEmpty.string_of_int (Z.to_int n).

Fixpoint py_repr (v : value) : string :=
  match v with
  | VNone => "None"
  | VBool true => "True"
  | VBool false => "False"
  | VInt n => str_of_int n
  | VStr s => repr_str s
  | VList items => "[" +:+ str_join ", " (map py_repr items) +:+ "]"
  | VDict entries =>
      "{" +:+ str_join ", " (map (fun kv => repr_str (fst kv) +:+ ": " +:+ py_repr (snd kv)) entries) +:+ "}"
  end.

(** [str(v)], which is also [format(v, "")] and what an f-string field
    renders. *)
Definition py_str (v : value) : string :=
  match v with
  | VStr s => s
  | _ => py_repr v
  end.

(** ** Exceptions and results *)

Inductive exn : Type :=
| ValueError (msg : string)
| TypeError
| AttributeError
| KeyError (key : string)
| ApiException (status : Z)
| OtherException (msg : string).

Inductive res (A : Type) : Type :=
| Return (a : A)
| Raise (e : exn).
Arguments Return {A} a.
Arguments Raise {A} e.

#[global] Instance res_ret : MRet res := fun A a => Return a.
#[global] Instance res_bind : MBind res := fun A B f r =>
  match r with
  | Return a => f a
  | Raise e => Raise e
  end.

(** [isinstance(e, ValueError)]: the test of [except ValueError]. *)
Definition is_ValueError (e : exn) : bool :=
  match e with
  | ValueError _ => true
  | _ => false
  end.

(** ** Regular expressions, as [re.match] runs them *)

Module Re.

Inductive regex : Type :=
| Eps
| Chr (c : ascii)
| Digit                       (* \d *)
| Bol                         (* ^ *)
| Eol                         (* $ *)
| Cat (r1 r2 : regex)
| Alt (r1 r2 : regex).

(** [r{lo,hi}], greedy: [count] is [hi], [lo] is the number of
    compulsory copies. *)
Fixpoint Repeat (lo count : nat) (r : regex) : regex :=
  match count with
  | O => Eps
  | S count' =>
      match lo with
      | O => Alt (Cat r (Repeat 0 count' r)) Eps
      | S lo' => Cat r (Repeat lo' count' r)
      end
  end.

(** Among the code points below 256, the decimal digits of Unicode
    are the ASCII ones. *)
Definition is_digit (c : ascii) : bool :=
  let n := nat_of_ascii c in ((48 <=? n) && (n <=? 57))%nat.

(** Backtracking matcher: [go r at_start s k] tries [r] at the head of
    [s] and hands the rest to [k]; [at_start] tells whether the head of
    [s] is the start of the subject. *)
Fixpoint go (r : regex) (at_start : bool) (s : string)
    (k : bool -> string -> bool) : bool :=
  match r with
  | Eps => k at_start s
  | Chr c =>
      match s with
      | String c' s' => Ascii.eqb c c' && k false s'
      | "" => false
      end
  | Digit =>
      match s with
      | String c' s' => is_digit c' && k false s'
      | "" => false
      end
  | Bol => at_start && k at_start s
  | Eol =>
      (String.eqb s "" || String.eqb s (String LF "")) && k at_start s
  | Cat r1 r2 => go r1 at_start s (fun b s' => go r2 b s' k)
  | Alt r1 r2 => go r1 at_start s k || go r2 at_start s k
  end.

(** [re.match(r, s) is not None]. *)
Definition matches (r : regex) (s : string) : bool :=
  go r true s (fun _ _ => true).

(** What the matcher decides: [accepts r b p rest b'] says that [r], tried
    at a position that is the start of the subject iff [b], matches the
    text [p] when [rest] follows it, and ends at a position that is the
    start of the subject iff [b']. *)
Inductive accepts : regex -> bool -> string -> string -> bool -> Prop :=
| accepts_Eps b rest : accepts Eps b "" rest b
| accepts_Chr c b rest : accepts (Chr c) b (String c "") rest false
| accepts_Digit c b rest :
    is_digit c = true -> accepts Digit b (String c "") rest false
| accepts_Bol rest : accepts Bol true "" rest true
| accepts_Eol b rest :
    rest = "" \/ rest = String LF "" -> accepts Eol b "" rest b
| accepts_Cat r1 r2 b p1 p2 rest b1 b2 :
    accepts r1 b p1 (p2 +:+ rest) b1 ->
    accepts r2 b1 p2 rest b2 ->
    accepts (Cat r1 r2) b (p1 +:+ p2) rest b2
| accepts_Alt_l r1 r2 b p rest b' :
    accepts r1 b p rest b' -> accepts (Alt r1 r2) b p rest b'
| accepts_Alt_r r1 r2 b p rest b' :
    accepts r2 b p rest b' -> accepts (Alt r1 r2) b p rest b'.

End Re.

(** ** operator/utils/validation.py *)

(** The pattern [^(\d{1,3}\.){3}\d{1,3}$]. *)
Definition ipv4_pattern : Re.regex :=
  Re.Cat Re.Bol
    (Re.Cat (Re.Repeat 3 3 (Re.Cat (Re.Repeat 1 3 Re.Digit) (Re.Chr ".")))
       (Re.Cat (Re.Repeat 1 3 Re.Digit) Re.Eol)).

(** [spec.get(key)]: [None] when the key is absent. *)
Definition spec_get (spec : dict) (key : string) : value :=
  dict_get spec key VNone.

Definition validate_a_record (spec : dict) : res unit :=
  let ipv4 := spec_get spec "ipv4Address" in
  if negb (truthy ipv4) then
    Raise (ValueError ("Invalid IPv4 address: " +:+ py_str ipv4))
  else
    match ipv4 with
    | VStr s =>
        if negb (Re.matches ipv4_pattern s) then
          Raise (ValueError ("Invalid IPv4 address: " +:+ py_str ipv4))
        else Return tt
    | _ => Raise TypeError       (* re.match on an object that is no str *)
    end.

Definition validate_aaaa_record (spec : dict) : res unit :=
  let ipv6 := spec_get spec "ipv6Address" in
  if negb (truthy ipv6) then Raise (ValueError "IPv6 address required")
  else Return tt.

Definition validate_cname_record (spec : dict) : res unit :=
  let target := spec_get spec "target" in
  if negb (truthy target) then Raise (ValueError "Target required for CNAME")
  else Return tt.

Definition validate_mx_record (spec : dict) : res unit :=
  if negb (dict_has spec "priority") || negb (dict_has spec "mailServer") then
    Raise (ValueError "Priority and mailServer required for MX record")
  else Return tt.

(** The table [validators] of [validate_dns_record]. *)
Definition validators : list (string * (dict -> res unit)) :=
  [ ("A", validate_a_record);
    ("AAAA", validate_aaaa_record);
    ("CNAME", validate_cname_record);
    ("MX", validate_mx_record) ].

Fixpoint validators_get (table : list (string * (dict -> res unit)))
    (record_type : string) : option (dict -> res unit) :=
  match table with
  | [] => None
  | (k, f) :: table' =>
      if String.eqb k record_type then Some f else validators_get table' record_type
  end.

Definition validate_dns_record (record_type : string) (spec : dict) : res unit :=
  match validators_get validators record_type with
  | Some validator => validator spec
  | None => Return tt
  end.


(** ** [str.format] *)

(** [template.format] applied to the keyword arguments [kwargs], for templates whose replacement fields are
    plain names: [{{] and [}}] stand for braces, [{name}] is replaced by
    [format(kwargs[name], "")].  [field] holds the name being read inside
    an open brace. *)
Fixpoint format_from (template : string) (field : option string)
    (kwargs : dict) : res string :=
  match template, field with
  | "", None => Return ""
  | "", Some _ => Raise (ValueError "expected '}' before end of string")
  | String c rest, Some name =>
      if Ascii.eqb c "}" then
        match dict_lookup kwargs name with
        | Some v => tail ← format_from rest None kwargs; Return (py_str v +:+ tail)
        | None => Raise (KeyError name)
        end
      else format_from rest (Some (name +:+ String c "")) kwargs
  | String c rest, None =>
      if Ascii.eqb c "{" then
        match rest with
        | String "{" rest' =>
            tail ← format_from rest' None kwargs; Return (String "{" tail)
        | _ => format_from rest (Some "") kwargs
        end
      else if Ascii.eqb c "}" then
        match rest with
        | String "}" rest' =>
            tail ← format_from rest' None kwargs; Return (String "}" tail)
        | _ => Raise (ValueError "Single '}' encountered in format string")
        end
      else tail ← format_from rest None kwargs; Return (String c tail)
  end.

Definition str_format (template : string) (kwargs : dict) : res string :=
  format_from template None kwargs.

(** ** operator/config/templates.py *)

Definition BIND9_CONFIG_TEMPLATE : string :=
"
// Generated BIND9 configuration for {instance_name}
options {{
    directory " +:+ dq +:+ "/var/lib/bind" +:+ dq +:+ ";
    listen-on {{ any; }};
    listen-on-v6 {{ any; }};

    allow-query {{ {allow_query}; }};
    allow-transfer {{ {allow_transfer}; }};
    recursion {recursion};

    dnssec-validation {dnssec_validation};

    version none;
    hostname none;
    server-id none;
}};

logging {{
    channel default_log {{
        file " +:+ dq +:+ "/var/log/bind/named.log" +:+ dq +:+ " versions 3 size 5m;
        severity info;
        print-time yes;
        print-severity yes;
        print-category yes;
    }};

    category default {{ default_log; }};
    category queries {{ default_log; }};
}};

include " +:+ dq +:+ "/etc/bind/zones/*.conf" +:+ dq +:+ ";
".

Definition ZONE_FILE_TEMPLATE : string :=
"
$ORIGIN {zone_name}.
$TTL {ttl}

@ IN SOA {primary_ns} {admin_email} (
    {serial}    ; Serial
    {refresh}   ; Refresh
    {retry}     ; Retry
    {expire}    ; Expire
    {minimum}   ; Negative TTL
)

; Records will be added here
".

(** ** operator/config/bind9.py *)

(** [obj.get(key, default)] on an object of type [Any]: only a [dict] has
    the method. *)
Definition py_get (obj : value) (key : string) (default : value) : res value :=
  match obj with
  | VDict d => Return (dict_get d key default)
  | _ => Raise AttributeError
  end.

Fixpoint expect_strs (items : list value) : res (list string) :=
  match items with
  | [] => Return []
  | VStr s :: items' => rest ← expect_strs items'; Return (s :: rest)
  | _ :: _ => Raise TypeError
  end.

(** [sep.join(obj)]: [obj] is iterated, and every item must be a [str]. *)
Definition py_join (sep : string) (obj : value) : res string :=
  match obj with
  | VList items => strs ← expect_strs items; Return (str_join sep strs)
  | VStr s => Return (str_join sep (str_chars s))
  | VDict entries => Return (str_join sep (map fst entries))
  | _ => Raise TypeError
  end.

(** [obj.replace(old, new)]: only a [str] has the method. *)
Definition py_replace (obj : value) (old : ascii) (new : string) : res string :=
  match obj with
  | VStr s => Return (str_replace_char old new s)
  | _ => Raise AttributeError
  end.

Definition generate_bind9_config (spec : dict) (instance_name : string)
    (namespace : string) : res string :=
  let config := dict_get spec "config" (VDict []) in
  allow_query_items ← py_get config "allowQuery" (VList [VStr "any"]);
  allow_query ← py_join " " allow_query_items;
  allow_transfer_items ← py_get config "allowTransfer" (VList [VStr "none"]);
  allow_transfer ← py_join " " allow_transfer_items;
  recursion ← py_get config "recursion" (VBool false);
  dnssec ← py_get config "dnssec" (VDict []);
  dnssec_enabled ← py_get dnssec "enabled" (VBool false);
  str_format BIND9_CONFIG_TEMPLATE
    [ ("instance_name", VStr instance_name);
      ("allow_query", VStr allow_query);
      ("allow_transfer", VStr allow_transfer);
      ("recursion", VStr (if truthy recursion then "yes" else "no"));
      ("dnssec_validation", VStr (if truthy dnssec_enabled then "auto" else "no")) ].

(** The wall clock, as [datetime.now()] reads it. *)
Record datetime : Type := {
  year : nat; month : nat; day : nat; hour : nat; minute : nat; second : nat
}.

Definition two_digits (n : nat) : string :=
  if (n <? 10)%nat then "0" +:+ str_of_int (Z.of_nat n) else str_of_int (Z.of_nat n).

(** [now.strftime("%Y%m%d01")]. *)
Definition strftime_Ymd01 (now : datetime) : string :=
  str_of_int (Z.of_nat (year now)) +:+ two_digits (month now)
  +:+ two_digits (day now) +:+ "01".

Definition digit_value (c : ascii) : option Z :=
  if Re.is_digit c then Some (Z.of_nat (nat_of_ascii c) - 48) else None.

Fixpoint int_from (acc : Z) (s : string) : res Z :=
  match s with
  | "" => Return acc
  | String c s' =>
      match digit_value c with
      | Some d => int_from (10 * acc + d) s'
      | None => Raise (ValueError "invalid literal for int() with base 10")
      end
  end.

(** [int(s)] for a [str] of decimal digits. *)
Definition py_int (s : string) : res Z :=
  match s with
  | "" => Raise (ValueError "invalid literal for int() with base 10")
  | _ => int_from 0 s
  end.

(** [int(datetime.now().strftime("%Y%m%d01"))]. *)
Definition date_serial (now : datetime) : res Z := py_int (strftime_Ymd01 now).

(** The parameter [logger] of the source is not used by the function and is
    left out; [now] is the clock that [datetime.now()] reads. *)
Definition generate_zone_file (now : datetime) (spec : dict) (zone_name : value)
    (namespace : string) : res string :=
  let soa := dict_get spec "soaRecord" (VDict []) in
  default_serial ← date_serial now;
  serial ← py_get soa "serial" (VInt default_serial);
  primary_ns ← py_get soa "primaryNS" (VStr ("ns1." +:+ py_str zone_name +:+ "."));
  admin ← py_get soa "adminEmail" (VStr ("admin." +:+ py_str zone_name +:+ "."));
  admin_email ← py_replace admin "@" ".";
  refresh ← py_get soa "refresh" (VInt 3600);
  retry ← py_get soa "retry" (VInt 600);
  expire ← py_get soa "expire" (VInt 604800);
  minimum ← py_get soa "negativeTTL" (VInt 86400);
  str_format ZONE_FILE_TEMPLATE
    [ ("zone_name", zone_name);
      ("ttl", dict_get spec "ttl" (VInt 3600));
      ("primary_ns", primary_ns);
      ("admin_email", VStr admin_email);
      ("serial", serial);
      ("refresh", refresh);
      ("retry", retry);
      ("expire", expire);
      ("minimum", minimum) ].

(** ** The objects of the Kubernetes client library

    The classes of [kubernetes.client] that the operator builds, with the
    fields it sets. *)

Record V1OwnerReference : Type := {
  or_api_version : string;
  or_kind : string;
  or_name : string;
  or_uid : string;
  or_controller : option bool;
  or_block_owner_deletion : option bool
}.

Record V1ObjectMeta : Type := {
  om_name : option string;
  om_namespace : option string;
  om_owner_references : list V1OwnerReference;
  om_labels : list (string * string)
}.

Record V1ConfigMap : Type := {
  cm_api_version : string;
  cm_kind : string;
  cm_metadata : V1ObjectMeta;
  cm_data : list (string * string)
}.

Record V1ContainerPort : Type := {
  cp_container_port : Z; cp_protocol : string; cp_name : string
}.

Record V1VolumeMount : Type := {
  vm_name : string; vm_mount_path : string; vm_read_only : bool
}.

Record V1Container : Type := {
  ct_name : string;
  ct_image : value;
  ct_ports : list V1ContainerPort;
  ct_volume_mounts : list V1VolumeMount
}.

Record V1ConfigMapVolumeSource : Type := { cms_name : string }.

Record V1Volume : Type := {
  vol_name : string; vol_config_map : V1ConfigMapVolumeSource
}.

Record V1PodSpec : Type := {
  ps_containers : list V1Container; ps_volumes : list V1Volume
}.

Record V1PodTemplateSpec : Type := {
  pt_metadata : V1ObjectMeta; pt_spec : V1PodSpec
}.

Record V1LabelSelector : Type := { ls_match_labels : list (string * string) }.

Record V1StatefulSetSpec : Type := {
  ss_service_name : string;
  ss_replicas : value;
  ss_selector : V1LabelSelector;
  ss_template : V1PodTemplateSpec
}.

Record V1StatefulSet : Type := {
  sts_api_version : string;
  sts_kind : string;
  sts_metadata : V1ObjectMeta;
  sts_spec : V1StatefulSetSpec
}.

Record V1ServicePort : Type := {
  sp_port : Z; sp_protocol : string; sp_name : string
}.

Record V1ServiceSpec : Type := {
  svs_selector : list (string * string);
  svs_ports : list V1ServicePort;
  svs_type : string
}.

Record V1Service : Type := {
  svc_api_version : string;
  svc_kind : string;
  svc_metadata : V1ObjectMeta;
  svc_spec : V1ServiceSpec
}.

(** ** The cluster, the log and the clock

    The API server is outside the repository.  It is modelled as a store
    of objects by identity with the contract the operator relies on:
    create fails with status 409 when the identity exists, patch fails with
    status 404 when it does not, and a patch with a complete body replaces
    the object.  [responses] scripts the failures of the server beyond
    that contract: each call takes the head of the list, and [Some e]
    makes the call raise [e] without touching the store. *)

Inductive artifact : Type :=
| ConfigMap (body : V1ConfigMap)
| StatefulSet (body : V1StatefulSet)
| Service (body : V1Service).

(** Kind, namespace, name. *)
Definition identity : Type := string * string * string.

Inductive api_call : Type :=
| create_namespaced_config_map (namespace : string) (body : V1ConfigMap)
| patch_namespaced_config_map (name namespace : string) (body : V1ConfigMap)
| create_namespaced_stateful_set (namespace : string) (body : V1StatefulSet)
| patch_namespaced_stateful_set (name namespace : string) (body : V1StatefulSet)
| create_namespaced_service (namespace : string) (body : V1Service).

Inductive log_level : Type := INFO | ERROR.

(** A log record: [message], followed by [str(cause)] when the source
    interpolates the exception it caught. *)
Record log_record : Type := {
  level : log_level; message : string; cause : option exn
}.

Record world : Type := {
  objects : gmap (string * string * string) artifact;
  responses : list (option exn);
  calls : list api_call;
  log : list log_record;
  clock : datetime;
  (** [KUBERNETES_SERVICE_HOST] is set *)
  in_cluster : bool;
  (** what [config.load_incluster_config()] raises, if anything *)
  incluster_config : option exn;
  (** what [config.load_kube_config()] raises, if anything *)
  kube_config : option exn
}.

Definition with_objects (w : world) (o : gmap (string * string * string) artifact) : world :=
  {| objects := o; responses := responses w; calls := calls w; log := log w;
     clock := clock w; in_cluster := in_cluster w;
     incluster_config := incluster_config w; kube_config := kube_config w |}.

Definition with_responses (w : world) (r : list (option exn)) : world :=
  {| objects := objects w; responses := r; calls := calls w; log := log w;
     clock := clock w; in_cluster := in_cluster w;
     incluster_config := incluster_config w; kube_config := kube_config w |}.

Definition with_calls (w : world) (c : list api_call) : world :=
  {| objects := objects w; responses := responses w; calls := c; log := log w;
     clock := clock w; in_cluster := in_cluster w;
     incluster_config := incluster_config w; kube_config := kube_config w |}.

Definition with_log (w : world) (l : list log_record) : world :=
  {| objects := objects w; responses := responses w; calls := calls w; log := l;
     clock := clock w; in_cluster := in_cluster w;
     incluster_config := incluster_config w; kube_config := kube_config w |}.

(** Computations that read and change the world and may raise; what was
    done before an exception stays done. *)
Definition M (A : Type) : Type := world -> res A * world.

#[global] Instance M_ret : MRet M := fun A a w => (Return a, w).
#[global] Instance M_bind : MBind M := fun A B f m w =>
  match m w with
  | (Return a, w') => f a w'
  | (Raise e, w') => (Raise e, w')
  end.

Definition raise {A : Type} (e : exn) : M A := fun w => (Raise e, w).

(** A pure computation that may raise, run inside [M]. *)
Definition lift {A : Type} (r : res A) : M A := fun w => (r, w).

(** [try: body  except Exception as e: handler(e)]. *)
Definition try_except {A : Type} (body : M A) (handler : exn -> M A) : M A :=
  fun w =>
    match body w with
    | (Return a, w') => (Return a, w')
    | (Raise e, w') => handler e w'
    end.

(** The logger appends a record; it does not raise. *)
Definition emit (r : log_record) (w : world) : world :=
  with_log w (log w ++ [r]).

Definition info (msg : string) : log_record :=
  {| level := INFO; message := msg; cause := None |}.

Definition error (msg : string) (e : option exn) : log_record :=
  {| level := ERROR; message := msg; cause := e |}.

Definition logger_info (msg : string) : M unit := fun w =>
  (Return tt, emit (info msg) w).

Definition artifact_key (kind namespace : string) (name : option string) : identity :=
  (kind, namespace, default "" name).

(** What the store answers to a call, failures of the server apart. *)
Definition store_step (c : api_call) (o : gmap (string * string * string) artifact)
    : res unit * gmap (string * string * string) artifact :=
  let create key obj :=
    match o !! key with
    | Some _ => (Raise (ApiException 409), o)
    | None => (Return tt, <[key := obj]> o)
    end in
  let patch key obj :=
    match o !! key with
    | Some _ => (Return tt, <[key := obj]> o)
    | None => (Raise (ApiException 404), o)
    end in
  match c with
  | create_namespaced_config_map ns body =>
      create (artifact_key "ConfigMap" ns (om_name (cm_metadata body))) (ConfigMap body)
  | patch_namespaced_config_map name ns body =>
      patch (artifact_key "ConfigMap" ns (Some name)) (ConfigMap body)
  | create_namespaced_stateful_set ns body =>
      create (artifact_key "StatefulSet" ns (om_name (sts_metadata body))) (StatefulSet body)
  | patch_namespaced_stateful_set name ns body =>
      patch (artifact_key "StatefulSet" ns (Some name)) (StatefulSet body)
  | create_namespaced_service ns body =>
      create (artifact_key "Service" ns (om_name (svc_metadata body))) (Service body)
  end.

(** One call of the API: it is recorded, then answered by the script of
    failures or by the store. *)
Definition k8s (c : api_call) : M unit := fun w =>
  let w1 := with_calls w (calls w ++ [c]) in
  match responses w1 with
  | Some e :: script => (Raise e, with_responses w1 script)
  | None :: script =>
      let (r, o) := store_step c (objects w1) in
      (r, with_objects (with_responses w1 script) o)
  | [] =>
      let (r, o) := store_step c (objects w1) in
      (r, with_objects w1 o)
  end.

(** ** operator/kubernetes/client.py *)

Definition load_config (failure : option exn) : M unit :=
  match failure with
  | Some e => raise e
  | None => mret tt
  end.

Definition get_k8s_client : M unit := fun w =>
  try_except
    (if in_cluster w then load_config (incluster_config w)
     else load_config (kube_config w))
    (fun _ => load_config (kube_config w)) w.

(** ** operator/kubernetes/resources.py *)

Definition no_meta : V1ObjectMeta :=
  {| om_name := None; om_namespace := None; om_owner_references := []; om_labels := [] |}.

(** The [V1StatefulSet] that [create_bind9_statefulset] builds. *)
Definition bind9_statefulset (spec : dict) (name namespace uid : string) : V1StatefulSet :=
  let replicas := dict_get spec "replicas" (VInt 1) in
  let image := dict_get spec "version" (VStr "internetsystemsconsortium/bind9:9.18") in
  {| sts_api_version := "apps/v1";
     sts_kind := "StatefulSet";
     sts_metadata :=
       {| om_name := Some (name +:+ "-bind9");
          om_namespace := Some namespace;
          om_owner_references :=
            [ {| or_api_version := "dns.example.com/v1alpha1";
                 or_kind := "Bind9Instance";
                 or_name := name;
                 or_uid := uid;
                 or_controller := Some true;
                 or_block_owner_deletion := Some true |} ];
          om_labels := [] |};
     sts_spec :=
       {| ss_service_name := name +:+ "-headless";
          ss_replicas := replicas;
          ss_selector := {| ls_match_labels := [("app", name +:+ "-bind9")] |};
          ss_template :=
            {| pt_metadata :=
                 {| om_name := None; om_namespace := None; om_owner_references := [];
                    om_labels := [("app", name +:+ "-bind9")] |};
               pt_spec :=
                 {| ps_containers :=
                      [ {| ct_name := "bind9";
                           ct_image := image;
                           ct_ports :=
                             [ {| cp_container_port := 53; cp_protocol := "UDP"; cp_name := "dns-udp" |};
                               {| cp_container_port := 53; cp_protocol := "TCP"; cp_name := "dns-tcp" |} ];
                           ct_volume_mounts :=
                             [ {| vm_name := "config"; vm_mount_path := "/etc/bind"; vm_read_only := true |};
                               {| vm_name := "zones"; vm_mount_path := "/etc/bind/zones"; vm_read_only := true |} ] |} ];
                    ps_volumes :=
                      [ {| vol_name := "config";
                           vol_config_map := {| cms_name := name +:+ "-config" |} |};
                        {| vol_name := "zones";
                           vol_config_map := {| cms_name := name +:+ "-zones" |} |} ] |} |} |} |}.

(** [except ApiException as e] catches that class only. *)
Definition except_ApiException {A : Type} (body : M A) (handler : Z -> exn -> M A) : M A :=
  try_except body
    (fun e => match e with
              | ApiException status => handler status e
              | _ => raise e
              end).

Definition create_bind9_statefulset (spec : dict) (name namespace uid : string) : M unit :=
  get_k8s_client;;
  let statefulset := bind9_statefulset spec name namespace uid in
  except_ApiException
    (k8s (create_namespaced_stateful_set namespace statefulset);;
     logger_info ("StatefulSet " +:+ name +:+ "-bind9 created"))
    (fun status _ =>
       if status =? 409 then
         k8s (patch_namespaced_stateful_set (name +:+ "-bind9") namespace statefulset)
       else mret tt).

(** The [V1Service] that [create_bind9_services] builds. *)
Definition bind9_service (name namespace uid : string) : V1Service :=
  {| svc_api_version := "v1";
     svc_kind := "Service";
     svc_metadata :=
       {| om_name := Some (name +:+ "-dns");
          om_namespace := Some namespace;
          om_owner_references :=
            [ {| or_api_version := "dns.example.com/v1alpha1";
                 or_kind := "Bind9Instance";
                 or_name := name;
                 or_uid := uid;
                 or_controller := None;
                 or_block_owner_deletion := None |} ];
          om_labels := [] |};
     svc_spec :=
       {| svs_selector := [("app", name +:+ "-bind9")];
          svs_ports :=
            [ {| sp_port := 53; sp_protocol := "UDP"; sp_name := "dns-udp" |};
              {| sp_port := 53; sp_protocol := "TCP"; sp_name := "dns-tcp" |} ];
          svs_type := "LoadBalancer" |} |}.

Definition create_bind9_services (name namespace uid : string) : M unit :=
  get_k8s_client;;
  let service := bind9_service name namespace uid in
  except_ApiException
    (k8s (create_namespaced_service namespace service))
    (fun status e => if negb (status =? 409) then raise e else mret tt).

(** The [V1ConfigMap] that [create_configmap] builds. *)
Definition configmap (name namespace data uid cm_type : string) : V1ConfigMap :=
  let cm_name := name +:+ "-" +:+ cm_type in
  {| cm_api_version := "v1";
     cm_kind := "ConfigMap";
     cm_metadata :=
       {| om_name := Some cm_name;
          om_namespace := Some namespace;
          om_owner_references :=
            [ {| or_api_version := "dns.example.com/v1alpha1";
                 or_kind := "Bind9Instance";
                 or_name := name;
                 or_uid := uid;
                 or_controller := None;
                 or_block_owner_deletion := None |} ];
          om_labels := [] |};
     cm_data := [(cm_type +:+ ".conf", data)] |}.

Definition create_configmap (name namespace data uid cm_type : string) : M unit :=
  get_k8s_client;;
  let cm_name := name +:+ "-" +:+ cm_type in
  let body := configmap name namespace data uid cm_type in
  except_ApiException
    (k8s (create_namespaced_config_map namespace body))
    (fun status _ =>
       if status =? 409 then
         k8s (patch_namespaced_config_map cm_name namespace body)
       else mret tt).

Definition reload_bind9_config (instance_name : value) (namespace : string) : M unit :=
  logger_info ("Reloading BIND9 config for " +:+ py_str instance_name).

Definition update_zone_file (zone_ref : value) (namespace record_name record_type : string)
    (spec : dict) : M unit :=
  logger_info ("Updating zone " +:+ py_str zone_ref +:+ " with " +:+ record_type
               +:+ " record " +:+ record_name).

(** ** The scheduler's side of a handler

    A handler returns a status or raises one of the two errors of the
    scheduler.  An error keeps the exception it was built from: its text
    is [context] followed by [str(cause)]. *)

Inductive kopf_error : Type :=
| PermanentError (context : string) (cause : exn)
| TemporaryError (context : string) (cause : exn) (delay : Z).

Inductive outcome : Type :=
| Done (status : dict)
| Failed (err : kopf_error).

Definition handler : Type := world -> outcome * world.

(** [try: body  except Exception as e: raise classify(e)], at the boundary
    of a handler. *)
Definition handler_try (body : M dict) (classify : exn -> world -> kopf_error * world)
    : handler :=
  fun w =>
    match body w with
    | (Return status, w') => (Done status, w')
    | (Raise e, w') => let (err, w'') := classify e w' in (Failed err, w'')
    end.

(** ** operator/handlers/instance.py *)

Definition create_bind9_instance (spec : dict) (name namespace uid : string) : handler :=
  fun w =>
    handler_try
      (config_data ← lift (generate_bind9_config spec name namespace);
       create_configmap name namespace config_data uid "config";;
       create_bind9_statefulset spec name namespace uid;;
       create_bind9_services name namespace uid;;
       mret [("phase", VStr "Ready"); ("message", VStr "BIND9 instance created successfully")])
      (fun e w' =>
         (TemporaryError "BIND9 creation failed: " e 30,
          emit (error "Failed to create BIND9 instance: " (Some e)) w'))
      (emit (info ("Creating BIND9 instance " +:+ name)) w).

(** An entry of [diff] is a tuple; the handler unpacks it into three
    names. *)
Definition diff_item : Type := list value.

(** [field in ["replicas", "image", "resources"]]. *)
Definition is_workload_field (field : value) : bool :=
  match field with
  | VStr s => String.eqb s "replicas" || String.eqb s "image" || String.eqb s "resources"
  | _ => false
  end.

(** [any(field in [...] for field, _, _ in diff)]: the entries are
    unpacked one by one, and the first hit stops the iteration. *)
Fixpoint any_workload_field (diff : list diff_item) : res bool :=
  match diff with
  | [] => Return false
  | [field; _; _] :: rest =>
      if is_workload_field field then Return true else any_workload_field rest
  | (_ :: _ :: _ :: _ :: _) :: _ =>
      Raise (ValueError "too many values to unpack (expected 3)")
  | item :: _ =>
      Raise (ValueError ("not enough values to unpack (expected 3, got "
                         +:+ str_of_int (Z.of_nat (length item)) +:+ ")"))
  end.

(** The parameters [old] and [new] of the source are not used by the
    handler and are left out. *)
Definition update_bind9_instance (spec : dict) (name namespace uid : string)
    (diff : list diff_item) : handler :=
  fun w =>
    handler_try
      (config_data ← lift (generate_bind9_config spec name namespace);
       create_configmap name namespace config_data uid "config";;
       needed ← lift (any_workload_field diff);
       (if needed : bool then create_bind9_statefulset spec name namespace uid else mret tt);;
       mret [("phase", VStr "Ready"); ("message", VStr "Updated successfully")])
      (fun e w' => (TemporaryError "Update failed: " e 30, w'))
      (emit (info ("Updating BIND9 instance " +:+ name)) w).

Definition delete_bind9_instance (spec : dict) (name namespace : string) : handler :=
  fun w =>
    (Done [("message", VStr "BIND9 instance deleted")],
     emit (info ("Deleting BIND9 instance " +:+ name)) w).

(** ** operator/handlers/zone.py *)

Definition manage_dns_zone (spec : dict) (name namespace uid : string) : handler :=
  fun w =>
    let zone_name := spec_get spec "zoneName" in
    let w0 := emit (info ("Managing DNS zone " +:+ py_str zone_name)) w in
    handler_try
      (zone_content ← lift (generate_zone_file (clock w0) spec zone_name namespace);
       create_configmap name namespace zone_content uid "zone";;
       let bind_instance := dict_get spec "bind9InstanceRef" (VStr "default") in
       reload_bind9_config bind_instance namespace;;
       serial ← lift (date_serial (clock w0));
       mret [("phase", VStr "Active"); ("serial", VInt serial); ("zoneName", zone_name)])
      (fun e w' => (TemporaryError "Zone management failed: " e 30, w'))
      w0.

(** Outside any [try]: an exception here would leave the handler as it is.
    The two calls only write to the log. *)
Definition delete_dns_zone (spec : dict) (name namespace : string) : handler :=
  fun w =>
    let w0 := emit (info ("Deleting DNS zone " +:+ name)) w in
    let bind_instance := dict_get spec "bind9InstanceRef" (VStr "default") in
    (Done [("message", VStr "Zone deleted")],
     snd (reload_bind9_config bind_instance namespace w0)).

(** ** operator/handlers/records.py *)

(** The body of [handle_record], with the zone-file mutation it calls as a
    parameter. *)
Definition handle_record_with
    (mutation : value -> string -> string -> string -> dict -> M unit)
    (record_type : string) (spec : dict) (name namespace : string) : handler :=
  fun w =>
    handler_try
      (lift (validate_dns_record record_type spec);;
       let zone_ref := spec_get spec "zone" in
       mutation zone_ref namespace name record_type spec;;
       mret [("status", VStr "active"); ("recordType", VStr record_type)])
      (fun e w' =>
         if is_ValueError e then (PermanentError "Invalid record: " e, w')
         else (TemporaryError "Record management failed: " e 30, w'))
      (emit (info ("Managing " +:+ record_type +:+ " record " +:+ name)) w).

(** [create_record_handler(record_type)]. *)
Definition create_record_handler (record_type : string) : dict -> string -> string -> handler :=
  handle_record_with update_zone_file record_type.

(** The record types the module registers a handler for, in upper case as
    the factory receives them. *)
Definition registered_record_types : list string :=
  ["A"; "AAAA"; "CNAME"; "MX"; "TXT"; "NS"; "SRV"; "PTR"; "CAA"; "NAPTR"].

(** ** The handlers by event

    The registrations of the three handler modules: which handler the
    scheduler runs for an event on a resource. *)

Inductive event : Type :=
| InstanceCreated (spec : dict) (name namespace uid : string)   (* create, resume *)
| InstanceUpdated (spec : dict) (name namespace uid : string) (diff : list diff_item)
| InstanceDeleted (spec : dict) (name namespace : string)
| ZoneChanged (spec : dict) (name namespace uid : string)       (* create, update, resume *)
| ZoneDeleted (spec : dict) (name namespace : string)
| RecordChanged (record_type : string) (spec : dict) (name namespace : string).

Definition dispatch (ev : event) : handler :=
  match ev with
  | InstanceCreated spec name namespace uid => create_bind9_instance spec name namespace uid
  | InstanceUpdated spec name namespace uid diff =>
      update_bind9_instance spec name namespace uid diff
  | InstanceDeleted spec name namespace => delete_bind9_instance spec name namespace
  | ZoneChanged spec name namespace uid => manage_dns_zone spec name namespace uid
  | ZoneDeleted spec name namespace => delete_dns_zone spec name namespace
  | RecordChanged record_type spec name namespace =>
      create_record_handler record_type spec name namespace
  end.

(** The calls of the API made by a run that started in [w] and ended in
    [w']. *)
Definition new_calls (w w' : world) : list api_call :=
  drop (length (calls w)) (calls w').

(** ** operator/utils/dns.py and the health daemon

    The daemon has its own logger and touches nothing of the cluster; a
    run is the sequence of what it does. *)

Inductive daemon_event : Type :=
| Logged (r : log_record)
| Queried (nameserver : string)
| Waited (timeout : Z).

(** Each of the three statements of the [try] can raise:
    [resolver_failure] is what [dns.resolver.Resolver()] raises, if
    anything, [nameservers_failure] what the assignment to
    [resolver.nameservers] raises, and [query_failure] what
    [resolver.query] raises.  The query is reached only when the two
    statements before it have raised nothing. *)
Definition test_dns_functionality (instance_name namespace : string)
    (resolver_failure nameservers_failure query_failure : option exn)
    : bool * list daemon_event :=
  let nameserver := instance_name +:+ "-dns." +:+ namespace +:+ ".svc.cluster.local" in
  match resolver_failure with
  | Some e => (false, [Logged (error "DNS test failed: " (Some e))])
  | None =>
      match nameservers_failure with
      | Some e => (false, [Logged (error "DNS test failed: " (Some e))])
      | None =>
          match query_failure with
          | None => (true, [Queried nameserver])
          | Some e =>
              (false, [Queried nameserver; Logged (error "DNS test failed: " (Some e))])
          end
      end
  end.

(** What the surroundings do during one turn of the loop of the daemon. *)
Record cycle : Type := {
  (** the truth value of [stopped] at the head of the loop *)
  stop_set : bool;
  (** what the three statements of the probe raise, if anything *)
  resolver_failure : option exn;
  nameservers_failure : option exn;
  query_failure : option exn;
  (** what [stopped.wait(60)] raises, if anything *)
  wait_failure : option exn;
  (** what [stopped.wait(120)] raises, if anything *)
  backoff_failure : option exn
}.

(** The loop of [monitor_bind9_health] over the turns in [script].  The
    loop of the source ends when a turn finds [stopped] set or when an
    exception leaves it; a script that runs out before either has happened
    cuts the run there, and [Return tt] then only says that nothing was
    raised so far.  That the daemon returns is therefore stated for scripts
    with a turn that finds [stopped] set. *)
Fixpoint monitor_loop (name namespace : string) (script : list cycle)
    : res unit * list daemon_event :=
  match script with
  | [] => (Return tt, [])
  | c :: script' =>
      if stop_set c then (Return tt, [])
      else
        let (healthy, probe) :=
          test_dns_functionality name namespace (resolver_failure c)
            (nameservers_failure c) (query_failure c) in
        let report :=
          if negb healthy
          then [Logged (error ("DNS functionality check failed for " +:+ name) None)]
          else [] in
        match wait_failure c with
        | None =>
            let (r, later) := monitor_loop name namespace script' in
            (r, probe ++ report ++ [Waited 60] ++ later)
        | Some e =>
            let caught := [Logged (error "Error in monitoring: " (Some e))] in
            match backoff_failure c with
            | None =>
                let (r, later) := monitor_loop name namespace script' in
                (r, probe ++ report ++ caught ++ [Waited 120] ++ later)
            | Some e' => (Raise e', probe ++ report ++ caught)
            end
        end
  end.

(** The parameter [spec] of the source is not used and is left out. *)
Definition monitor_bind9_health (name namespace : string) (script : list cycle)
    : res unit * list daemon_event :=
  let (r, run) := monitor_loop name namespace script in
  (r, Logged (info ("Starting health monitoring for " +:+ name)) :: run).

(** The timeouts of the waits of a run, in order. *)
Definition waits (run : list daemon_event) : list Z :=
  omap (fun ev => match ev with Waited t => Some t | _ => None end) run.

(** ** Vocabulary of the statements *)

(** Every character of [s] is a decimal digit. *)
Fixpoint all_digits (s : string) : bool :=
  match s with
  | "" => true
  | String c s' => Re.is_digit c && all_digits s'
  end.

(** One to three decimal digits. *)
Definition digit_group (g : string) : Prop :=
  all_digits g = true /\ (1 <= String.length g <= 3)%nat.

(** Four groups of one to three digits with dots between them; a line feed
    may follow. *)
Definition dotted_quad (s : string) : Prop :=
  exists a b c d tail,
    s = a +:+ "." +:+ b +:+ "." +:+ c +:+ "." +:+ d +:+ tail
    /\ digit_group a /\ digit_group b /\ digit_group c /\ digit_group d
    /\ (tail = "" \/ tail = String LF "").

(** The spec of the repository's test of the instance configuration. *)
Definition test_instance_spec : dict :=
  [ ("config", VDict [ ("recursion", VBool false);
                       ("allowQuery", VList [VStr "any"]);
                       ("allowTransfer", VList [VStr "none"]) ]) ].

Definition new_year_2024 : datetime :=
  {| year := 2024; month := 1; day := 1; hour := 9; minute := 0; second := 0 |}.

Definition next_day_2024 : datetime :=
  {| year := 2024; month := 1; day := 2; hour := 9; minute := 0; second := 0 |}.

Definition empty_cluster : world :=
  {| objects := ∅; responses := []; calls := []; log := [];
     clock := new_year_2024; in_cluster := true;
     incluster_config := None; kube_config := None |}.

(** The identity a call of the API addresses. *)
Definition call_key (c : api_call) : identity :=
  match c with
  | create_namespaced_config_map ns body =>
      artifact_key "ConfigMap" ns (om_name (cm_metadata body))
  | patch_namespaced_config_map name ns _ => artifact_key "ConfigMap" ns (Some name)
  | create_namespaced_stateful_set ns body =>
      artifact_key "StatefulSet" ns (om_name (sts_metadata body))
  | patch_namespaced_stateful_set name ns _ => artifact_key "StatefulSet" ns (Some name)
  | create_namespaced_service ns body =>
      artifact_key "Service" ns (om_name (svc_metadata body))
  end.

(** The call addresses one of [keys]. *)
Definition targets (keys : list identity) (c : api_call) : Prop :=
  In (call_key c) keys.

(** The surroundings of the operator that no call changes. *)
Definition same_env (w w' : world) : Prop :=
  in_cluster w = in_cluster w'
  /\ incluster_config w = incluster_config w'
  /\ kube_config w = kube_config w'
  /\ clock w = clock w'.

(** [w'] comes from [w] by calls of the API that all satisfy [P]; an
    identity that none of them addresses holds what it held. *)
Definition evolves (P : api_call -> Prop) (w w' : world) : Prop :=
  same_env w w'
  /\ exists l,
      calls w' = calls w ++ l
      /\ Forall P l
      /\ forall key, Forall (fun c => call_key c <> key) l ->
                     objects w' !! key = objects w !! key.

Definition M_evolves {A : Type} (P : api_call -> Prop) (m : M A) : Prop :=
  forall w, evolves P w (snd (m w)).

(** The Python client found a configuration to talk to the cluster. *)
Definition client_loads (w : world) : Prop := fst (get_k8s_client w) = Return tt.

(** The answer of the server to a create is the conflict signal. *)
Definition conflict (answer : res unit) : bool :=
  match answer with
  | Raise (ApiException status) => status =? 409
  | _ => false
  end.

(** The identities of the artifacts of an instance or of a zone. *)
Definition config_key (name namespace : string) : identity :=
  ("ConfigMap", namespace, name +:+ "-config").
Definition zone_key (name namespace : string) : identity :=
  ("ConfigMap", namespace, name +:+ "-zone").
Definition workload_key (name namespace : string) : identity :=
  ("StatefulSet", namespace, name +:+ "-bind9").
Definition exposure_key (name namespace : string) : identity :=
  ("Service", namespace, name +:+ "-dns").

(** The identities that the handler of an event may write. *)
Definition event_keys (ev : event) : list identity :=
  match ev with
  | InstanceCreated _ name ns _ =>
      [config_key name ns; workload_key name ns; exposure_key name ns]
  | InstanceUpdated _ name ns _ _ => [config_key name ns; workload_key name ns]
  | ZoneChanged _ name ns _ => [zone_key name ns]
  | InstanceDeleted _ _ _ | ZoneDeleted _ _ _ | RecordChanged _ _ _ _ => []
  end.

(** The name of the resource an event is about. *)
Definition event_name (ev : event) : string :=
  match ev with
  | InstanceCreated _ name _ _ | InstanceUpdated _ name _ _ _
  | InstanceDeleted _ name _ | ZoneChanged _ name _ _ | ZoneDeleted _ name _
  | RecordChanged _ _ name _ => name
  end.

(** The name of the ConfigMap that the reconciliation of an event applies,
    if it applies one. *)
Definition configmap_of_event (ev : event) : option string :=
  match ev with
  | InstanceCreated _ name _ _ | InstanceUpdated _ name _ _ _ => Some (name +:+ "-config")
  | ZoneChanged _ name _ _ => Some (name +:+ "-zone")
  | InstanceDeleted _ _ _ | ZoneDeleted _ _ _ | RecordChanged _ _ _ _ => None
  end.

(** The volumes of the pods of a StatefulSet. *)
Definition volumes_of (s : V1StatefulSet) : list V1Volume :=
  ps_volumes (pt_spec (ss_template (sts_spec s))).

(** An entry of [diff] that unpacks into three names. *)
Definition is_triple (item : diff_item) : Prop := length item = 3%nat.

(** The diff has an entry for the field [field]. *)
Definition touches (field : string) (diff : list diff_item) : Prop :=
  exists old new, In [VStr field; old; new] diff.

Definition touches_workload (diff : list diff_item) : Prop :=
  touches "replicas" diff \/ touches "image" diff \/ touches "resources" diff.

(** The turns of the loop that are run: those before the first one that
    finds [stopped] set. *)
Fixpoint cycles_run (script : list cycle) : list cycle :=
  match script with
  | [] => []
  | c :: script' => if stop_set c then [] else c :: cycles_run script'
  end.

(** A turn in which the probe fails and nothing else goes wrong. *)
Definition failed_probe : cycle :=
  {| stop_set := false; resolver_failure := None; nameservers_failure := None;
     query_failure := Some (OtherException "timed out");
     wait_failure := None; backoff_failure := None |}.

(** The error records of a run. *)
Definition errors_logged (run : list daemon_event) : list log_record :=
  omap (fun ev => match ev with
                  | Logged r => match level r with ERROR => Some r | INFO => None end
                  | _ => None
                  end) run.

(** The exception that makes the probe of a turn fail, if any: the first
    of its three statements that raises. *)
Definition probe_failure (c : cycle) : option exn :=
  match resolver_failure c with
  | Some e => Some e
  | None =>
      match nameservers_failure c with
      | Some e => Some e
      | None => query_failure c
      end
  end.

(** The error records of a turn whose waits raise nothing: for a failed
    probe the record of the probe and then the record of the daemon, and
    none for a probe that succeeds. *)
Definition probe_errors (name : string) (c : cycle) : list log_record :=
  match probe_failure c with
  | Some e => [ error "DNS test failed: " (Some e);
                error ("DNS functionality check failed for " +:+ name) None ]
  | None => []
  end.

(** An entry of the diff as the scheduler delivers it, with four fields:
    the operation, the path of the field, the old and the new value.  Here
    the replicas of an instance went from 1 to 3. *)
Definition replicas_changed_entry : diff_item :=
  [VStr "change"; VList [VStr "spec"; VStr "replicas"]; VInt 1; VInt 3].

(** ** Vocabulary of the further properties *)

(** The calendar date of [a] is before that of [b]. *)
Definition date_before (a b : datetime) : Prop :=
  (year a < year b
   \/ (year a = year b
       /\ (month a < month b \/ (month a = month b /\ day a < day b))))%nat.

(** The wait that follows the probe of a turn of the loop. *)
Definition wait_of (c : cycle) : Z :=
  match wait_failure c with
  | None => 60
  | Some _ => 120
  end.

(** The probe of the turn reaches its query: the resolver was made and
    given its name server without an exception. *)
Definition reaches_query (c : cycle) : bool :=
  match resolver_failure c, nameservers_failure c with
  | None, None => true
  | _, _ => false
  end.

(** The name servers queried in a run, in order. *)
Definition queries (run : list daemon_event) : list string :=
  omap (fun ev => match ev with Queried host => Some host | _ => None end) run.

(** The server answers every call by the contract of the store alone, and
    the client loads. *)
Definition healthy (w : world) : Prop := responses w = [] /\ client_loads w.

(** What [create_bind9_services] leaves in a store without failures: an
    existing Service is kept. *)
Definition keep_or_insert (key : identity) (obj : artifact)
    (o : gmap (string * string * string) artifact) : gmap (string * string * string) artifact :=
  match o !! key with
  | Some _ => o
  | None => <[key := obj]> o
  end.

(** The object a call of the API carries. *)
Definition call_obj (c : api_call) : artifact :=
  match c with
  | create_namespaced_config_map _ body | patch_namespaced_config_map _ _ body =>
      ConfigMap body
  | create_namespaced_stateful_set _ body | patch_namespaced_stateful_set _ _ body =>
      StatefulSet body
  | create_namespaced_service _ body => Service body
  end.

Definition is_patch (c : api_call) : bool :=
  match c with
  | patch_namespaced_config_map _ _ _ | patch_namespaced_stateful_set _ _ _ => true
  | _ => false
  end.

(** What a pass of the instance handler leaves in a store without
    failures. *)
Definition instance_pass (spec : dict) (name ns cfg uid : string)
    (o : gmap (string * string * string) artifact) : gmap (string * string * string) artifact :=
  keep_or_insert (exposure_key name ns) (Service (bind9_service name ns uid))
    (<[workload_key name ns := StatefulSet (bind9_statefulset spec name ns uid)]>
       (<[config_key name ns := ConfigMap (configmap name ns cfg uid "config")]> o)).

(** The text [hay] holds, somewhere, a text of the shape [N]: [N post] is
    a needle with the rest [post] of the text after it. *)
Definition occurs_as (N : string -> string) (hay : string) : Prop :=
  exists pre post, hay = pre +:+ N post.

(** The text of the instance configuration of the repository's test. *)
Definition test_instance_text : string :=
  match generate_bind9_config test_instance_spec "test-instance" "default" with
  | Return text => text
  | Raise _ => ""
  end.

(** The keyword arguments of a [format], each rendered. *)
Definition rendered (kwargs : dict) : dict :=
  map (fun kv => (fst kv, VStr (py_str (snd kv)))) kwargs.

(** The zone spec of the repository's test of the zone file. *)
Definition test_zone_spec : dict :=
  [ ("zoneName", VStr "example.com");
    ("ttl", VInt 3600);
    ("soaRecord", VDict [ ("primaryNS", VStr "ns1.example.com.");
                          ("adminEmail", VStr "admin@example.com");
                          ("serial", VInt 2024010101) ]) ].

Definition test_zone_text : string :=
  match generate_zone_file new_year_2024 test_zone_spec (VStr "example.com") "default" with
  | Return text => text
  | Raise _ => ""
  end.

(** * Properties *)

(** ** Strings *)

Lemma str_app_assoc (a b c : string) : (a +:+ b) +:+ c = a +:+ (b +:+ c).
Proof.
  induction a as [| x a IH]; [reflexivity |].
  change (String x ((a +:+ b) +:+ c) = String x (a +:+ (b +:+ c))). now rewrite IH.
Qed.

Lemma str_app_nil_r (a : string) : a +:+ "" = a.
Proof.
  induction a as [| x a IH]; [reflexivity |].
  change (String x (a +:+ "") = String x a). now rewrite IH.
Qed.

Lemma str_rev_app (a b : string) : str_rev (a +:+ b) = str_rev b +:+ str_rev a.
Proof.
  induction a as [| x a IH].
  - symmetry. apply str_app_nil_r.
  - change (str_rev (a +:+ b) +:+ String x "" = str_rev b +:+ (str_rev a +:+ String x "")).
    rewrite IH. apply str_app_assoc.
Qed.

Lemma str_in_here (x s : string) : String.prefix x s = true -> str_in x s = true.
Proof. intros H. destruct s; cbn [str_in]; rewrite H; reflexivity. Qed.

Lemma str_in_cons (x s : string) (c : ascii) :
  str_in x s = true -> str_in x (String c s) = true.
Proof. intros H. cbn [str_in]. rewrite H. apply orb_true_r. Qed.

Lemma str_in_app_r (x a b : string) : str_in x b = true -> str_in x (a +:+ b) = true.
Proof.
  intros H. induction a as [| c a IH]; [exact H |].
  change (String c a +:+ b) with (String c (a +:+ b)). now apply str_in_cons.
Qed.

(** Walks down a text made of characters and of unknown pieces until the
    needle is found at the head. *)
Ltac find_needle :=
  repeat first
    [ apply str_in_here; reflexivity
    | apply str_in_cons
    | apply str_in_app_r ].

(** ** Validator *)

Lemma go_spec (r : Re.regex) :
  forall (b : bool) (s : string) (k : bool -> string -> bool),
    Re.go r b s k = true <->
    exists p rest b', s = p +:+ rest /\ Re.accepts r b p rest b' /\ k b' rest = true.
Proof.
  induction r as [| c | | | | r1 IH1 r2 IH2 | r1 IH1 r2 IH2]; intros b s k; simpl.
  - split.
    + intros Hk. exists "", s, b. repeat split; [constructor | exact Hk].
    + intros (p & rest & b' & -> & Hacc & Hk). inversion Hacc; subst. exact Hk.
  - split.
    + destruct s as [| c' s']; [discriminate |].
      intros [Hc Hk]%andb_prop. apply Ascii.eqb_eq in Hc as <-.
      exists (String c ""), s', false. repeat split; [constructor | exact Hk].
    + intros (p & rest & b' & -> & Hacc & Hk). inversion Hacc; subst. simpl.
      now rewrite Ascii.eqb_refl.
  - split.
    + destruct s as [| c' s']; [discriminate |].
      intros [Hc Hk]%andb_prop.
      exists (String c' ""), s', false. repeat split; [now constructor | exact Hk].
    + intros (p & rest & b' & -> & Hacc & Hk). inversion Hacc; subst.
      apply andb_true_intro. split; assumption.
  - split.
    + intros [Hb Hk]%andb_prop. subst b.
      exists "", s, true. repeat split; [constructor | exact Hk].
    + intros (p & rest & b' & -> & Hacc & Hk). inversion Hacc; subst. exact Hk.
  - split.
    + intros [Hs Hk]%andb_prop. exists "", s, b. repeat split; [| exact Hk].
      constructor. apply orb_prop in Hs as [Hs | Hs]; apply String.eqb_eq in Hs; auto.
    + intros (p & rest & b' & -> & Hacc & Hk). inversion Hacc; subst.
      apply andb_true_intro. split; [| exact Hk].
      match goal with H : _ \/ _ |- _ => destruct H as [-> | ->] end; reflexivity.
  - rewrite IH1. split.
    + intros (p1 & rest1 & b1 & -> & Hacc1 & Hk1).
      apply IH2 in Hk1 as (p2 & rest & b2 & -> & Hacc2 & Hk).
      exists (p1 +:+ p2), rest, b2. repeat split; [| econstructor; eassumption | exact Hk].
      symmetry. apply str_app_assoc.
    + intros (p & rest & b' & -> & Hacc & Hk). inversion Hacc; subst.
      exists p1, (p2 +:+ rest), b1. repeat split; [apply str_app_assoc | assumption |].
      apply IH2. eauto 6.
  - rewrite orb_true_iff, IH1, IH2. split.
    + intros [(p & rest & b' & -> & Hacc & Hk) | (p & rest & b' & -> & Hacc & Hk)];
        exists p, rest, b'; repeat split; auto using Re.accepts_Alt_l, Re.accepts_Alt_r.
    + intros (p & rest & b' & -> & Hacc & Hk). inversion Hacc; subst; [left | right]; eauto 6.
Qed.

Lemma matches_spec (r : Re.regex) (s : string) :
  Re.matches r s = true <->
  exists p rest b', s = p +:+ rest /\ Re.accepts r true p rest b'.
Proof.
  unfold Re.matches. rewrite go_spec. split.
  - intros (p & rest & b' & Hs & Hacc & _). eauto.
  - intros (p & rest & b' & Hs & Hacc). eauto 6.
Qed.

Ltac invert_accepts :=
  repeat match goal with
    | H : Re.accepts (Re.Cat _ _) _ _ _ _ |- _ => inversion H; subst; clear H
    | H : Re.accepts (Re.Alt _ _) _ _ _ _ |- _ => inversion H; subst; clear H
    | H : Re.accepts Re.Eps _ _ _ _ |- _ => inversion H; subst; clear H
    | H : Re.accepts Re.Bol _ _ _ _ |- _ => inversion H; subst; clear H
    | H : Re.accepts Re.Eol _ _ _ _ |- _ => inversion H; subst; clear H
    | H : Re.accepts Re.Digit _ _ _ _ |- _ => inversion H; subst; clear H
    | H : Re.accepts (Re.Chr _) _ _ _ _ |- _ => inversion H; subst; clear H
    end.

Lemma accepts_digit_group (b : bool) (p rest : string) (b' : bool) :
  Re.accepts (Re.Repeat 1 3 Re.Digit) b p rest b' <-> digit_group p /\ b' = false.
Proof.
  cbn [Re.Repeat]. split.
  - intros H. invert_accepts; (split; [| reflexivity]);
      (split; [| cbv [String.append String.length]; lia]);
      cbv [String.append all_digits];
      repeat match goal with H : Re.is_digit _ = true |- _ => rewrite H; clear H end;
      reflexivity.
  - intros [[Hd Hlen] ->].
    destruct p as [| c1 [| c2 [| c3 [| c4 p]]]]; cbn in Hlen; try lia;
      cbn [all_digits] in Hd;
      repeat match goal with
        | H : _ && _ = true |- _ => apply andb_prop in H as [? H]
        end.
    + apply (Re.accepts_Cat _ _ _ (String c1 "") "" rest false false);
        [now constructor | apply Re.accepts_Alt_r; constructor].
    + apply (Re.accepts_Cat _ _ _ (String c1 "") (String c2 "") rest false false);
        [now constructor | apply Re.accepts_Alt_l].
      apply (Re.accepts_Cat _ _ _ (String c2 "") "" rest false false);
        [now constructor | apply Re.accepts_Alt_r; constructor].
    + apply (Re.accepts_Cat _ _ _ (String c1 "") (String c2 (String c3 "")) rest false false);
        [now constructor | apply Re.accepts_Alt_l].
      apply (Re.accepts_Cat _ _ _ (String c2 "") (String c3 "") rest false false);
        [now constructor | apply Re.accepts_Alt_l].
      apply (Re.accepts_Cat _ _ _ (String c3 "") "" rest false false);
        [now constructor | constructor].
Qed.

Lemma ipv4_pattern_shape :
  ipv4_pattern
  = let D := Re.Repeat 1 3 Re.Digit in
    let X := Re.Cat D (Re.Chr ".") in
    Re.Cat Re.Bol
      (Re.Cat (Re.Cat X (Re.Cat X (Re.Cat X Re.Eps))) (Re.Cat D Re.Eol)).
Proof. reflexivity. Qed.

(** The strings that the pattern of addresses matches. *)
Lemma ipv4_pattern_spec (s : string) :
  Re.matches ipv4_pattern s = true <-> dotted_quad s.
Proof.
  rewrite matches_spec, ipv4_pattern_shape. cbv zeta.
  pose proof accepts_digit_group as HD.
  generalize dependent (Re.Repeat 1 3 Re.Digit). intros D HD.
  split.
  - intros (p & rest & b' & -> & Hacc). invert_accepts.
    repeat match goal with
      | H : Re.accepts D _ _ _ _ |- _ => apply HD in H as [? ?]; subst
      end.
    match goal with
    | |- dotted_quad ((_ +:+ ((?a +:+ _) +:+ (?b +:+ _) +:+ (?c +:+ _) +:+ _) +:+ ?d +:+ _) +:+ ?t) =>
        exists a, b, c, d, t
    end.
    split; [| tauto].
    change ("" +:+ ?x) with x.
    rewrite ?str_app_assoc, ?str_app_nil_r. reflexivity.
  - intros (a & b & c & d & tail & -> & Ha & Hb & Hc & Hd & Htail).
    exists ("" +:+ (((a +:+ ".") +:+ ((b +:+ ".") +:+ ((c +:+ ".") +:+ ""))) +:+ (d +:+ ""))),
      tail, false.
    split.
    + change ("" +:+ ?x) with x.
      rewrite ?str_app_assoc, ?str_app_nil_r. reflexivity.
    + repeat (eapply Re.accepts_Cat || apply Re.accepts_Bol || apply Re.accepts_Eps
              || apply Re.accepts_Chr || (apply Re.accepts_Eol; exact Htail)
              || (apply HD; split; [assumption | reflexivity])).
Qed.

(** The specs that the A-record check accepts. *)
Lemma validate_a_record_accepts_exactly (spec : dict) :
  validate_dns_record "A" spec = Return tt <->
  exists s, dict_lookup spec "ipv4Address" = Some (VStr s) /\ dotted_quad s.
Proof.
  change (validate_dns_record "A" spec) with (validate_a_record spec).
  unfold validate_a_record, spec_get, dict_get.
  destruct (dict_lookup spec "ipv4Address") as [v |].
  - destruct (negb (truthy v)) eqn:Htruthy.
    + split; [discriminate |]. intros (s & [= ->] & Hq).
      simpl in Htruthy. destruct s; [| discriminate].
      destruct Hq as (a & b & c & d & tail & Hs & [_ Ha] & _).
      destruct a; simpl in *; [lia | discriminate].
    + destruct v; try (split; [discriminate | intros (s' & [=] & _)]).
      destruct (Re.matches ipv4_pattern s) eqn:Hm; simpl.
      * split; [intros _ | reflexivity]. exists s. split; [reflexivity |].
        now apply ipv4_pattern_spec.
      * split; [discriminate |]. intros (s' & [= <-] & Hq).
        apply ipv4_pattern_spec in Hq. congruence.
  - simpl. split; [discriminate | intros (s & [=] & _)].
Qed.

(** Every address of four groups of one to three digits passes, whatever
    the numbers the groups denote. *)
Lemma validate_a_record_ignores_octet_range (a b c d : string) :
  digit_group a -> digit_group b -> digit_group c -> digit_group d ->
  validate_dns_record "A" [("ipv4Address", VStr (a +:+ "." +:+ b +:+ "." +:+ c +:+ "." +:+ d))]
  = Return tt.
Proof.
  intros Ha Hb Hc Hd. apply validate_a_record_accepts_exactly.
  eexists. split; [reflexivity |].
  exists a, b, c, d, "". rewrite str_app_nil_r. auto 10.
Qed.

Lemma validate_a_record_documentation_address :
  validate_dns_record "A" [("ipv4Address", VStr "192.0.2.1")] = Return tt.
Proof. reflexivity. Qed.

Lemma validate_a_record_absent (spec : dict) :
  dict_lookup spec "ipv4Address" = None ->
  validate_dns_record "A" spec = Raise (ValueError "Invalid IPv4 address: None").
Proof.
  intros Habs. unfold validate_dns_record; simpl.
  unfold validate_a_record, spec_get, dict_get. now rewrite Habs.
Qed.

(** C1: the A-record check compares the address with the pattern only, and
    the pattern allows any three digits in a group; the address
    999.999.999.999, which the test suite expects to be refused, is
    accepted. *)
Theorem validate_a_record_accepts_999 :
  validate_dns_record "A" [("ipv4Address", VStr "999.999.999.999")] = Return tt.
Proof. reflexivity. Qed.

Lemma validate_unregistered (record_type : string) (spec : dict) :
  validators_get validators record_type = None ->
  validate_dns_record record_type spec = Return tt.
Proof. intros Hnone. unfold validate_dns_record. now rewrite Hnone. Qed.

(** C7: the record types TXT, NS, SRV, PTR, CAA and NAPTR pass validation
    for every spec, and the table of registered checks has exactly the keys
    A, AAAA, CNAME and MX. *)
Theorem unregistered_record_types_pass (spec : dict) :
  Forall (fun record_type => validate_dns_record record_type spec = Return tt)
    ["TXT"; "NS"; "SRV"; "PTR"; "CAA"; "NAPTR"]
  /\ map fst validators = ["A"; "AAAA"; "CNAME"; "MX"].
Proof.
  split; [| reflexivity].
  repeat constructor.
Qed.

(** ** Config synthesizer *)

Lemma all_digits_app (a b : string) :
  all_digits (a +:+ b) = all_digits a && all_digits b.
Proof.
  induction a as [| c a IH]; simpl; [reflexivity |].
  rewrite IH. now rewrite andb_assoc.
Qed.

Lemma all_digits_uint (u : Decimal.uint) :
  all_digits (NilEmpty.string_of_uint u) = true.
Proof. induction u; simpl; auto. Qed.

Lemma all_digits_nat (n : nat) : all_digits (str_of_int (Z.of_nat n)) = true.
Proof.
  unfold str_of_int. destruct (Z.of_nat n) eqn:E; simpl.
  - reflexivity.
  - apply all_digits_uint.
  - lia.
Qed.

Lemma all_digits_two_digits (n : nat) : all_digits (two_digits n) = true.
Proof.
  unfold two_digits. destruct (n <? 10)%nat.
  - rewrite all_digits_app, all_digits_nat. reflexivity.
  - apply all_digits_nat.
Qed.

Lemma int_from_digits (s : string) :
  all_digits s = true -> forall acc, exists n, int_from acc s = Return n.
Proof.
  induction s as [| c s IH]; simpl; intros Hs acc.
  - now exists acc.
  - apply andb_prop in Hs as [Hc Hs].
    unfold digit_value. rewrite Hc. apply IH, Hs.
Qed.

Lemma append_nonempty (a b : string) : b <> "" -> a +:+ b <> "".
Proof. destruct a; simpl; [auto | discriminate]. Qed.

(** The default serial exists at every reading of the clock. *)
Lemma date_serial_total (now : datetime) : exists n, date_serial now = Return n.
Proof.
  unfold date_serial, strftime_Ymd01.
  set (s := str_of_int (Z.of_nat (year now)) +:+ two_digits (month now)
            +:+ two_digits (day now) +:+ "01").
  assert (Hs : all_digits s = true).
  { subst s. rewrite !all_digits_app, all_digits_nat, !all_digits_two_digits.
    reflexivity. }
  assert (Hne : s <> "") by (subst s; repeat apply append_nonempty; discriminate).
  destruct (int_from_digits s Hs 0) as [n Hn].
  exists n. unfold py_int. destruct s; [contradiction | exact Hn].
Qed.







Lemma dict_get_absent (d : dict) (key : string) (x : value) :
  dict_lookup d key = None -> dict_get d key x = x.
Proof. intros H. unfold dict_get. now rewrite H. Qed.

Lemma generate_bind9_config_test_instance (ns : string) :
  exists text,
    generate_bind9_config test_instance_spec "test-instance" ns = Return text
    /\ str_in "test-instance" text = true
    /\ str_in "recursion no" text = true
    /\ str_in "allow-query" text = true.
Proof. eexists. split; [reflexivity |]. vm_compute. auto. Qed.

Lemma generate_bind9_config_defaults_text (spec config : dict) (name ns text : string) :
  dict_get spec "config" (VDict []) = VDict config ->
  dict_lookup config "allowQuery" = None ->
  dict_lookup config "recursion" = None ->
  generate_bind9_config spec name ns = Return text ->
  str_in "allow-query { any; };" text = true /\ str_in "recursion no;" text = true.
Proof.
  intros Hcfg Haq Hrec. unfold generate_bind9_config. cbv zeta. rewrite Hcfg.
  cbn [py_get].
  rewrite (dict_get_absent config "allowQuery"), (dict_get_absent config "recursion")
    by assumption.
  cbn [mbind res_bind py_join expect_strs str_join truthy].
  destruct (py_join " " (dict_get config "allowTransfer" (VList [VStr "none"])))
    as [allow_transfer | e]; [| discriminate].
  destruct (py_get (dict_get config "dnssec" (VDict [])) "enabled" (VBool false))
    as [enabled | e]; [| discriminate].
  cbn [mbind res_bind]. intros Htext.
  destruct (truthy enabled); vm_compute in Htext; injection Htext as <-;
    split; find_needle.
Qed.

Lemma generate_bind9_config_defaults_explicit (spec config : dict) (name ns : string) :
  dict_get spec "config" (VDict []) = VDict config ->
  dict_lookup config "allowQuery" = None ->
  dict_lookup config "recursion" = None ->
  generate_bind9_config spec name ns
  = generate_bind9_config
      (("config", VDict (("allowQuery", VList [VStr "any"])
                         :: ("recursion", VBool false) :: config)) :: spec)
      name ns.
Proof.
  intros Hcfg Haq Hrec. unfold generate_bind9_config. cbv zeta. rewrite Hcfg.
  change (dict_get (("config", ?c) :: spec) "config" (VDict []))
    with c.
  cbn [py_get].
  rewrite (dict_get_absent config "allowQuery"), (dict_get_absent config "recursion")
    by assumption.
  reflexivity.
Qed.

(** C8: for the spec of the test and the name test-instance the
    configuration text holds the three substrings; and a config without
    allowQuery and without recursion gives the text of the same config with
    allowQuery ["any"] and recursion false, which holds the clauses
    "allow-query { any; };" and "recursion no;". *)
Theorem generate_bind9_config_substrings_and_defaults (spec config : dict)
    (name ns : string) :
  (exists text,
      generate_bind9_config test_instance_spec "test-instance" ns = Return text
      /\ str_in "test-instance" text = true
      /\ str_in "recursion no" text = true
      /\ str_in "allow-query" text = true)
  /\ (dict_get spec "config" (VDict []) = VDict config ->
      dict_lookup config "allowQuery" = None ->
      dict_lookup config "recursion" = None ->
      generate_bind9_config spec name ns
      = generate_bind9_config
          (("config", VDict (("allowQuery", VList [VStr "any"])
                             :: ("recursion", VBool false) :: config)) :: spec)
          name ns
      /\ forall text,
          generate_bind9_config spec name ns = Return text ->
          str_in "allow-query { any; };" text = true
          /\ str_in "recursion no;" text = true).
Proof.
  split; [apply generate_bind9_config_test_instance |].
  intros Hcfg Haq Hrec. split.
  - now apply generate_bind9_config_defaults_explicit.
  - intros text. now apply (generate_bind9_config_defaults_text spec config name ns text).
Qed.

Lemma generate_bind9_config_substrings_and_defaults_witness :
  generate_bind9_config [("replicas", VInt 2)] "dns1" "default"
  = generate_bind9_config
      [ ("config", VDict [("allowQuery", VList [VStr "any"]); ("recursion", VBool false)]);
        ("replicas", VInt 2) ]
      "dns1" "default".
Proof.
  apply (generate_bind9_config_substrings_and_defaults
           [("replicas", VInt 2)] [] "dns1" "default"); reflexivity.
Defined.

(** ** Record handler *)


Lemma handle_record_mutation_fails
    (mutation : value -> string -> string -> string -> dict -> M unit)
    (record_type : string) (spec : dict) (name ns : string) (w : world) (e : exn) :
  validate_dns_record record_type spec = Return tt ->
  fst (mutation (spec_get spec "zone") ns name record_type spec
         (emit (info ("Managing " +:+ record_type +:+ " record " +:+ name)) w))
  = Raise e ->
  is_ValueError e = false ->
  fst (handle_record_with mutation record_type spec name ns w)
  = Failed (TemporaryError "Record management failed: " e 30).
Proof.
  intros Hval Hmut Hcls. unfold handle_record_with, handler_try, lift, mbind, M_bind.
  rewrite Hval.
  destruct (mutation _ _ _ _ _ _) as [[[] | e'] w']; simpl in Hmut; [discriminate |].
  injection Hmut as ->. now rewrite Hcls.
Qed.







(** ** How a run changes the cluster *)

Section Evolution.

Variable P : api_call -> Prop.

Lemma same_env_refl (w : world) : same_env w w.
Proof. repeat split. Qed.

Lemma same_env_trans (w1 w2 w3 : world) :
  same_env w1 w2 -> same_env w2 w3 -> same_env w1 w3.
Proof.
  intros (? & ? & ? & ?) (? & ? & ? & ?). repeat split; congruence.
Qed.

Lemma evolves_refl (w : world) : evolves P w w.
Proof.
  split; [apply same_env_refl |]. exists []. rewrite app_nil_r. auto.
Qed.

Lemma evolves_trans (w1 w2 w3 : world) :
  evolves P w1 w2 -> evolves P w2 w3 -> evolves P w1 w3.
Proof.
  intros [He1 (l1 & Hc1 & Hp1 & Ho1)] [He2 (l2 & Hc2 & Hp2 & Ho2)].
  split; [eapply same_env_trans; eassumption |].
  exists (l1 ++ l2). split; [| split].
  - rewrite Hc2, Hc1. now rewrite app_assoc.
  - apply Forall_app. auto.
  - intros key Hkey. apply Forall_app in Hkey as [Hk1 Hk2].
    rewrite Ho2, Ho1; auto.
Qed.

Lemma evolves_emit (r : log_record) (w : world) : evolves P w (emit r w).
Proof.
  split; [repeat split |]. exists []. simpl. rewrite app_nil_r. auto.
Qed.

Lemma evolves_k8s (c : api_call) : P c -> M_evolves P (k8s c).
Proof.
  intros Hc w. unfold k8s.
  assert (Hframe : forall key, call_key c <> key ->
            snd (store_step c (objects w)) !! key = objects w !! key).
  { intros key Hne. unfold store_step.
    destruct c; simpl in *;
      match goal with |- context [objects w !! ?k] => destruct (objects w !! k) eqn:E end;
      simpl; try reflexivity; now rewrite lookup_insert_ne. }
  assert (Hstep : forall w1, objects w1 = objects w -> same_env w w1 ->
            calls w1 = calls w ++ [c] ->
            evolves P w (with_objects w1 (snd (store_step c (objects w1))))).
  { intros w1 Ho He Hcalls. split; [exact He |]. exists [c]. simpl.
    split; [exact Hcalls |]. split; [auto |].
    intros key Hkey. apply Forall_cons in Hkey as [Hne _].
    rewrite Ho. now apply Hframe. }
  destruct (responses (with_calls w (calls w ++ [c]))) as [| [e |] script]; simpl.
  - destruct (store_step c (objects w)) as [r o] eqn:Hs; simpl.
    specialize (Hstep (with_calls w (calls w ++ [c])) eq_refl).
    simpl in Hstep. rewrite Hs in Hstep. apply Hstep; repeat split.
  - split; [repeat split |]. exists [c]. simpl. auto.
  - destruct (store_step c (objects w)) as [r o] eqn:Hs; simpl.
    specialize (Hstep (with_responses (with_calls w (calls w ++ [c])) script) eq_refl).
    simpl in Hstep. rewrite Hs in Hstep. apply Hstep; repeat split.
Qed.

Lemma M_evolves_ret {A : Type} (a : A) : M_evolves P (mret a).
Proof. intros w. apply evolves_refl. Qed.

Lemma M_evolves_raise {A : Type} (e : exn) : M_evolves P (raise e : M A).
Proof. intros w. apply evolves_refl. Qed.

Lemma M_evolves_lift {A : Type} (r : res A) : M_evolves P (lift r).
Proof. intros w. apply evolves_refl. Qed.

Lemma M_evolves_logger_info (msg : string) : M_evolves P (logger_info msg).
Proof. intros w. apply evolves_emit. Qed.

Lemma M_evolves_bind {A B : Type} (m : M A) (f : A -> M B) :
  M_evolves P m -> (forall a, M_evolves P (f a)) -> M_evolves P (m ≫= f).
Proof.
  intros Hm Hf w. unfold mbind, M_bind. specialize (Hm w).
  destruct (m w) as [[a | e] w1]; simpl in *; [| exact Hm].
  eapply evolves_trans; [exact Hm | apply Hf].
Qed.

Lemma M_evolves_try_except {A : Type} (body : M A) (handler : exn -> M A) :
  M_evolves P body -> (forall e, M_evolves P (handler e)) ->
  M_evolves P (try_except body handler).
Proof.
  intros Hm Hh w. unfold try_except. specialize (Hm w).
  destruct (body w) as [[a | e] w1]; simpl in *; [exact Hm |].
  eapply evolves_trans; [exact Hm | apply Hh].
Qed.

Lemma get_k8s_client_world (w : world) : snd (get_k8s_client w) = w.
Proof.
  unfold get_k8s_client, try_except, load_config, raise.
  destruct (in_cluster w), (incluster_config w), (kube_config w); reflexivity.
Qed.

Lemma M_evolves_get_k8s_client : M_evolves P get_k8s_client.
Proof. intros w. rewrite get_k8s_client_world. apply evolves_refl. Qed.

Lemma M_evolves_except_ApiException {A : Type} (body : M A) (handler : Z -> exn -> M A) :
  M_evolves P body -> (forall status e, M_evolves P (handler status e)) ->
  M_evolves P (except_ApiException body handler).
Proof.
  intros Hm Hh. apply M_evolves_try_except; [exact Hm |].
  intros []; try apply M_evolves_raise. apply Hh.
Qed.

End Evolution.

Lemma new_calls_app (w w' : world) (l : list api_call) :
  calls w' = calls w ++ l -> new_calls w w' = l.
Proof. intros Hc. unfold new_calls. rewrite Hc. apply drop_app_length. Qed.

Lemma evolves_weaken (P Q : api_call -> Prop) (w w' : world) :
  (forall c, P c -> Q c) -> evolves P w w' -> evolves Q w w'.
Proof.
  intros HPQ [He (l & Hc & Hp & Ho)]. split; [exact He |].
  exists l. repeat split; auto. eapply Forall_impl; eauto.
Qed.

Lemma targets_sub (keys keys' : list identity) (c : api_call) :
  (forall k, In k keys -> In k keys') -> targets keys c -> targets keys' c.
Proof. unfold targets. auto. Qed.

Lemma create_configmap_evolves (name ns data uid cm_type : string) :
  M_evolves (targets [("ConfigMap", ns, name +:+ "-" +:+ cm_type)])
    (create_configmap name ns data uid cm_type).
Proof.
  unfold create_configmap.
  apply M_evolves_bind; [apply M_evolves_get_k8s_client | intros _].
  apply M_evolves_except_ApiException.
  - apply evolves_k8s. left. reflexivity.
  - intros status e. destruct (status =? 409).
    + apply evolves_k8s. left. reflexivity.
    + apply M_evolves_ret.
Qed.

Lemma create_bind9_statefulset_evolves (spec : dict) (name ns uid : string) :
  M_evolves (targets [workload_key name ns]) (create_bind9_statefulset spec name ns uid).
Proof.
  unfold create_bind9_statefulset.
  apply M_evolves_bind; [apply M_evolves_get_k8s_client | intros _].
  apply M_evolves_except_ApiException.
  - apply M_evolves_bind; [| intros _; apply M_evolves_logger_info].
    apply evolves_k8s. left. reflexivity.
  - intros status e. destruct (status =? 409).
    + apply evolves_k8s. left. reflexivity.
    + apply M_evolves_ret.
Qed.

Lemma create_bind9_services_evolves (name ns uid : string) :
  M_evolves (targets [exposure_key name ns]) (create_bind9_services name ns uid).
Proof.
  unfold create_bind9_services.
  apply M_evolves_bind; [apply M_evolves_get_k8s_client | intros _].
  apply M_evolves_except_ApiException.
  - apply evolves_k8s. left. reflexivity.
  - intros status e. destruct (negb (status =? 409)).
    + apply M_evolves_raise.
    + apply M_evolves_ret.
Qed.

Lemma M_evolves_weaken {A : Type} (P Q : api_call -> Prop) (m : M A) :
  (forall c, P c -> Q c) -> M_evolves P m -> M_evolves Q m.
Proof. intros HPQ Hm w. eapply evolves_weaken; [exact HPQ | apply Hm]. Qed.

Lemma handler_try_evolves (P : api_call -> Prop) (body : M dict)
    (classify : exn -> world -> kopf_error * world) (w : world) :
  M_evolves P body ->
  (forall e w', evolves P w' (snd (classify e w'))) ->
  evolves P w (snd (handler_try body classify w)).
Proof.
  intros Hb Hc. unfold handler_try. specialize (Hb w).
  destruct (body w) as [[status | e] w1]; simpl in *; [exact Hb |].
  specialize (Hc e w1). destruct (classify e w1) as [err w2]; simpl in *.
  eapply evolves_trans; eassumption.
Qed.

Ltac sub_targets lem :=
  eapply M_evolves_weaken; [ | eapply lem ];
  [ intros c; apply targets_sub; simpl; intuition ].

(** Every handler writes only to the identities of its event. *)
Lemma dispatch_evolves (ev : event) (w : world) :
  evolves (targets (event_keys ev)) w (snd (dispatch ev w)).
Proof.
  destruct ev as [spec name ns uid | spec name ns uid diff | spec name ns
                 | spec name ns uid | spec name ns | record_type spec name ns]; simpl.
  - unfold create_bind9_instance.
    eapply evolves_trans; [apply evolves_emit |].
    apply handler_try_evolves.
    + apply M_evolves_bind; [apply M_evolves_lift | intros config_data].
      apply M_evolves_bind;
        [sub_targets create_configmap_evolves | intros _].
      apply M_evolves_bind;
        [sub_targets create_bind9_statefulset_evolves | intros _].
      apply M_evolves_bind;
        [sub_targets create_bind9_services_evolves | intros _].
      apply M_evolves_ret.
    + intros e w'. apply evolves_emit.
  - unfold update_bind9_instance.
    eapply evolves_trans; [apply evolves_emit |].
    apply handler_try_evolves.
    + apply M_evolves_bind; [apply M_evolves_lift | intros config_data].
      apply M_evolves_bind;
        [sub_targets create_configmap_evolves | intros _].
      apply M_evolves_bind; [apply M_evolves_lift | intros needed].
      apply M_evolves_bind; [| intros _; apply M_evolves_ret].
      destruct needed; [| apply M_evolves_ret].
      sub_targets create_bind9_statefulset_evolves.
    + intros e w'. apply evolves_refl.
  - apply evolves_emit.
  - unfold manage_dns_zone.
    eapply evolves_trans; [apply evolves_emit |].
    apply handler_try_evolves.
    + apply M_evolves_bind; [apply M_evolves_lift | intros zone_content].
      apply M_evolves_bind; [apply create_configmap_evolves | intros _].
      apply M_evolves_bind; [apply M_evolves_logger_info | intros _].
      apply M_evolves_bind; [apply M_evolves_lift | intros serial].
      apply M_evolves_ret.
    + intros e w'. apply evolves_refl.
  - unfold delete_dns_zone.
    eapply evolves_trans; [apply evolves_emit |]. apply M_evolves_logger_info.
  - unfold create_record_handler, handle_record_with.
    eapply evolves_trans; [apply evolves_emit |].
    apply handler_try_evolves.
    + apply M_evolves_bind; [apply M_evolves_lift | intros _].
      apply M_evolves_bind; [apply M_evolves_logger_info | intros _].
      apply M_evolves_ret.
    + intros e w'. destruct (is_ValueError e); apply evolves_refl.
Qed.

(** ** Names of the ConfigMaps *)

Lemma config_suffix_not_zones (name : string) :
  str_endswith (name +:+ "-config") "-zones" = false.
Proof. unfold str_endswith. rewrite str_rev_app. reflexivity. Qed.

Lemma zone_suffix_not_zones (name : string) :
  str_endswith (name +:+ "-zone") "-zones" = false.
Proof. unfold str_endswith. rewrite str_rev_app. reflexivity. Qed.

Lemma targets_event_configmap (ev : event) (c : api_call) (ns n : string) :
  targets (event_keys ev) c ->
  call_key c = ("ConfigMap", ns, n) ->
  configmap_of_event ev = Some n /\ str_endswith n "-zones" = false.
Proof.
  unfold targets. intros Hin Hkey. rewrite Hkey in Hin.
  destruct ev; simpl in *;
    unfold config_key, zone_key, workload_key, exposure_key in Hin;
    intuition; try discriminate;
    match goal with H : (_, _, _) = (_, _, _) |- _ => injection H as ? ?; subst end;
    auto using config_suffix_not_zones, zone_suffix_not_zones.
Qed.

(** C10: the StatefulSet of an instance named n takes its zones volume
    from the ConfigMap n-zones; and every call of the API on a ConfigMap,
    in the run of any handler on any event, addresses name-config for an
    instance event or name-zone for a zone event, a name that does not end
    in -zones. *)
Theorem zones_volume_configmap_is_never_applied (spec : dict) (name ns uid : string)
    (ev : event) (w : world) :
  In {| vol_name := "zones"; vol_config_map := {| cms_name := name +:+ "-zones" |} |}
     (volumes_of (bind9_statefulset spec name ns uid))
  /\ Forall (fun c => forall ns' n,
                 call_key c = ("ConfigMap", ns', n) ->
                 configmap_of_event ev = Some n /\ str_endswith n "-zones" = false)
       (new_calls w (snd (dispatch ev w))).
Proof.
  split; [simpl; auto |].
  destruct (dispatch_evolves ev w) as [_ (l & Hcalls & Hl & _)].
  rewrite (new_calls_app _ _ _ Hcalls).
  eapply Forall_impl; [exact Hl |].
  intros c Hc ns' n. now apply targets_event_configmap.
Qed.

(** ** Instance update *)

Lemma is_workload_field_spec (field : value) :
  is_workload_field field = true <->
  field = VStr "replicas" \/ field = VStr "image" \/ field = VStr "resources".
Proof.
  destruct field; simpl; try (split; [discriminate | intros [|[|]]; discriminate]).
  rewrite !orb_true_iff, !String.eqb_eq.
  split.
  - intros [[H | H] | H]; subst; auto.
  - intros [H | [H | H]]; injection H as ->; auto.
Qed.

Lemma touches_cons (field : string) (item : diff_item) (diff : list diff_item) :
  touches field (item :: diff) <->
  (exists old new, item = [VStr field; old; new]) \/ touches field diff.
Proof.
  unfold touches. simpl. split.
  - intros (o & n & [H | H]); [left | right]; eauto.
  - intros [(o & n & H) | (o & n & H)]; exists o, n; auto.
Qed.

Lemma touches_workload_cons (item : diff_item) (diff : list diff_item) :
  touches_workload (item :: diff) <->
  (exists field old new, item = [field; old; new] /\ is_workload_field field = true)
  \/ touches_workload diff.
Proof.
  unfold touches_workload. rewrite !touches_cons. split.
  - intros [[(o & n & ->) | H] | [[(o & n & ->) | H] | [(o & n & ->) | H]]];
      try (left; do 3 eexists; split; reflexivity); right; auto.
  - intros [(field & o & n & -> & Hf) | [H | [H | H]]]; [| tauto ..].
    apply is_workload_field_spec in Hf as [-> | [-> | ->]];
      [left | right; left | right; right]; left; eauto.
Qed.

Lemma any_workload_field_spec (diff : list diff_item) :
  Forall is_triple diff ->
  exists b, any_workload_field diff = Return b /\ (b = true <-> touches_workload diff).
Proof.
  induction 1 as [| item diff Hitem _ IH].
  - exists false. split; [reflexivity |].
    split; [discriminate |].
    intros [(? & ? & []) | [(? & ? & []) | (? & ? & [])]].
  - destruct item as [| field [| old [| new [| extra item]]]]; try discriminate Hitem.
    simpl. destruct (is_workload_field field) eqn:Hf.
    + exists true. split; [reflexivity |]. split; [intros _ | reflexivity].
      apply touches_workload_cons. left. eauto 6.
    + destruct IH as (b & Hb & Hiff). exists b. split; [exact Hb |].
      rewrite touches_workload_cons, Hiff. split; [auto |].
      intros [(f & o & n & [= -> -> ->] & Hf') | H]; [congruence | exact H].
Qed.

Lemma client_loads_same_env (w w' : world) :
  same_env w w' -> fst (get_k8s_client w) = fst (get_k8s_client w').
Proof.
  intros (H1 & H2 & H3 & _). unfold get_k8s_client, try_except, load_config, raise.
  rewrite <- H1, <- H2, <- H3.
  destruct (in_cluster w), (incluster_config w), (kube_config w); reflexivity.
Qed.

Lemma get_k8s_client_loads (w : world) :
  client_loads w -> get_k8s_client w = (Return tt, w).
Proof.
  intros H. rewrite (surjective_pairing (get_k8s_client w)).
  now rewrite H, get_k8s_client_world.
Qed.

Lemma create_configmap_returns_loads (name ns data uid cm_type : string) (w : world) :
  fst (create_configmap name ns data uid cm_type w) = Return tt -> client_loads w.
Proof.
  unfold create_configmap, client_loads, mbind, M_bind.
  destruct (get_k8s_client w) as [[[] | e] w1]; simpl; [reflexivity | discriminate].
Qed.

Lemma k8s_calls (c : api_call) (w : world) : calls (snd (k8s c w)) = calls w ++ [c].
Proof.
  unfold k8s. simpl.
  destruct (responses w) as [| [e |] script]; simpl;
    try destruct (store_step c (objects w)); reflexivity.
Qed.

(** The first call of [create_bind9_statefulset], when the client loads,
    is the create of the StatefulSet it built. *)
Lemma create_bind9_statefulset_calls (spec : dict) (name ns uid : string) (w : world) :
  client_loads w ->
  exists l,
    calls (snd (create_bind9_statefulset spec name ns uid w))
    = calls w ++ create_namespaced_stateful_set ns (bind9_statefulset spec name ns uid) :: l.
Proof.
  intros Hload. unfold create_bind9_statefulset, mbind, M_bind.
  rewrite (get_k8s_client_loads w Hload).
  unfold except_ApiException, try_except, mbind, M_bind.
  pose proof (k8s_calls (create_namespaced_stateful_set ns (bind9_statefulset spec name ns uid)) w)
    as Hc.
  destruct (k8s _ w) as [[[] | e] w1]; simpl in *.
  - exists []. exact Hc.
  - destruct e; simpl; try (exists []; exact Hc).
    destruct (status =? 409); simpl; [| exists []; exact Hc].
    eexists. rewrite k8s_calls, Hc, <- app_assoc. reflexivity.
Qed.

Lemma create_configmap_calls (name ns data uid cm_type : string) (w : world) :
  client_loads w ->
  exists l,
    calls (snd (create_configmap name ns data uid cm_type w))
    = calls w ++ create_namespaced_config_map ns (configmap name ns data uid cm_type) :: l.
Proof.
  intros Hload. unfold create_configmap, mbind, M_bind.
  rewrite (get_k8s_client_loads w Hload).
  unfold except_ApiException, try_except.
  pose proof (k8s_calls (create_namespaced_config_map ns (configmap name ns data uid cm_type)) w)
    as Hc.
  destruct (k8s _ w) as [[[] | e] w1]; simpl in *.
  - exists []. exact Hc.
  - destruct e; simpl; try (exists []; exact Hc).
    destruct (status =? 409); simpl; [| exists []; exact Hc].
    eexists. rewrite k8s_calls, Hc, <- app_assoc. reflexivity.
Qed.

(** The run of the update handler, once the configuration is generated and
    the ConfigMap step has returned in the world [w1]. *)
Lemma update_bind9_instance_run (spec : dict) (name ns uid cfg : string)
    (diff : list diff_item) (w w1 : world) (needed : bool) :
  generate_bind9_config spec name ns = Return cfg ->
  create_configmap name ns cfg uid "config"
    (emit (info ("Updating BIND9 instance " +:+ name)) w) = (Return tt, w1) ->
  any_workload_field diff = Return needed ->
  update_bind9_instance spec name ns uid diff w
  = if needed then
      match create_bind9_statefulset spec name ns uid w1 with
      | (Return _, w2) =>
          (Done [("phase", VStr "Ready"); ("message", VStr "Updated successfully")], w2)
      | (Raise e, w2) => (Failed (TemporaryError "Update failed: " e 30), w2)
      end
    else (Done [("phase", VStr "Ready"); ("message", VStr "Updated successfully")], w1).
Proof.
  intros Hgen Hcm Hany.
  unfold update_bind9_instance, handler_try, mbind, M_bind, lift.
  rewrite Hgen, Hcm, Hany. destruct needed; [| reflexivity].
  destruct (create_bind9_statefulset spec name ns uid w1) as [[[] | e] w2]; reflexivity.
Qed.

(** What the handler does on a diff whose entries are triples, which it
    can unpack: once the configuration is generated and the ConfigMap step
    has returned, the StatefulSet is sent to the cluster if and only if the
    diff has an entry for replicas, image or resources; when it has none,
    the handler reports Ready, no StatefulSet of the cluster has changed,
    and the calls of the run start with the create of the ConfigMap of the
    configuration and address nothing else. *)
Theorem update_reapplies_workload_iff_touched (spec : dict) (name ns uid cfg : string)
    (diff : list diff_item) (w : world) :
  Forall is_triple diff ->
  generate_bind9_config spec name ns = Return cfg ->
  fst (create_configmap name ns cfg uid "config"
         (emit (info ("Updating BIND9 instance " +:+ name)) w)) = Return tt ->
  let w' := snd (update_bind9_instance spec name ns uid diff w) in
  (In (create_namespaced_stateful_set ns (bind9_statefulset spec name ns uid))
      (new_calls w w')
   <-> touches_workload diff)
  /\ (~ touches_workload diff ->
      fst (update_bind9_instance spec name ns uid diff w)
      = Done [("phase", VStr "Ready"); ("message", VStr "Updated successfully")]
      /\ (forall ns' n,
             objects w' !! ("StatefulSet", ns', n) = objects w !! ("StatefulSet", ns', n))
      /\ head (new_calls w w')
         = Some (create_namespaced_config_map ns (configmap name ns cfg uid "config"))
      /\ Forall (targets [config_key name ns]) (new_calls w w')).
Proof.
  intros Htriples Hgen Hcm w'.
  set (w0 := emit (info ("Updating BIND9 instance " +:+ name)) w) in *.
  destruct (any_workload_field_spec diff Htriples) as (needed & Hany & Hiff).
  pose proof (create_configmap_returns_loads _ _ _ _ _ _ Hcm) as Hload.
  destruct (create_configmap_calls name ns cfg uid "config" w0 Hload) as (l1 & Hcalls1).
  pose proof (create_configmap_evolves name ns cfg uid "config" w0) as Hev.
  destruct (create_configmap name ns cfg uid "config" w0) as [r w1] eqn:Hrun.
  simpl in Hcm, Hcalls1, Hev. subst r.
  pose proof (update_bind9_instance_run spec name ns uid cfg diff w w1 needed Hgen Hrun Hany)
    as Hupd.
  destruct Hev as [Henv (l & Hl & Htargets & Hframe)].
  change (calls w0) with (calls w) in *.
  assert (Hl1 : l = create_namespaced_config_map ns (configmap name ns cfg uid "config") :: l1).
  { rewrite Hl in Hcalls1. now apply app_inv_head in Hcalls1. }
  destruct needed.
  - (* the diff touches a workload field *)
    assert (Htouched : touches_workload diff) by now apply Hiff.
    split; [| tauto]. split; [intros _; exact Htouched | intros _].
    assert (Hload1 : client_loads w1).
    { unfold client_loads. rewrite <- (client_loads_same_env w0 w1 Henv). exact Hload. }
    destruct (create_bind9_statefulset_calls spec name ns uid w1 Hload1) as (l2 & Hcalls2).
    subst w'. rewrite Hupd.
    destruct (create_bind9_statefulset spec name ns uid w1) as [[[] | e] w2];
      simpl in *;
      rewrite (new_calls_app w w2 (l ++ create_namespaced_stateful_set ns
                                          (bind9_statefulset spec name ns uid) :: l2))
        by (rewrite Hcalls2, Hl, <- app_assoc; reflexivity);
      apply in_or_app; right; now left.
  - (* the diff touches none of them *)
    assert (Hnot : ~ touches_workload diff) by (rewrite <- Hiff; discriminate).
    subst w'. rewrite Hupd. simpl. rewrite (new_calls_app w w1 l Hl).
    split.
    + split; [| tauto]. intros Hin.
      rewrite List.Forall_forall in Htargets. apply Htargets in Hin.
      destruct Hin as [Hin | []]. discriminate Hin.
    + intros _. split; [reflexivity |]. split; [| split].
      * intros ns' n. rewrite Hframe; [reflexivity |].
        eapply Forall_impl; [exact Htargets |].
        intros c [Hc | []] Heq. rewrite Heq in Hc. discriminate Hc.
      * now rewrite Hl1.
      * exact Htargets.
Qed.

Lemma update_reapplies_workload_iff_touched_witness :
  fst (update_bind9_instance [("replicas", VInt 2)] "dns1" "default" "uid-1"
         [[VStr "config"; VNone; VDict []]] empty_cluster)
  = Done [("phase", VStr "Ready"); ("message", VStr "Updated successfully")].
Proof.
  edestruct (update_reapplies_workload_iff_touched [("replicas", VInt 2)] "dns1"
               "default" "uid-1") as [_ Huntouched];
    [ | | | apply Huntouched ].
  - repeat constructor.
  - reflexivity.
  - vm_compute. reflexivity.
  - unfold touches_workload, touches. simpl.
    intros [(o & n & [H | []]) | [(o & n & [H | []]) | (o & n & [H | []])]];
      discriminate H.
Defined.

(** C4: an update of an instance whose replicas went from 1 to 3, with the
    entry of the diff as the scheduler delivers it, of four fields.  The
    unpacking into three names raises a ValueError after the ConfigMap of
    the configuration was created: the handler raises the temporary error
    with delay 30 where it should report Ready, its only call of the API is
    the create of the ConfigMap, and the cluster holds no StatefulSet
    dns1-bind9 afterwards, although the replicas changed. *)
Theorem update_fails_on_scheduler_diff_entry :
  fst (update_bind9_instance [("replicas", VInt 3)] "dns1" "default" "uid-1"
         [replicas_changed_entry] empty_cluster)
  = Failed (TemporaryError "Update failed: "
              (ValueError "too many values to unpack (expected 3)") 30)
  /\ map call_key
       (new_calls empty_cluster
          (snd (update_bind9_instance [("replicas", VInt 3)] "dns1" "default" "uid-1"
                  [replicas_changed_entry] empty_cluster)))
     = [config_key "dns1" "default"]
  /\ objects (snd (update_bind9_instance [("replicas", VInt 3)] "dns1" "default" "uid-1"
                     [replicas_changed_entry] empty_cluster))
     !! workload_key "dns1" "default" = None.
Proof. vm_compute. repeat split. Qed.

(** ** Applier *)

(** What one call answers and leaves, by the three cases of the script. *)
Lemma k8s_conflict_keeps_objects (c : api_call) (w : world) :
  conflict (fst (k8s c w)) = true -> objects (snd (k8s c w)) = objects w.
Proof.
  unfold k8s. simpl.
  destruct (responses w) as [| [e |] script]; simpl; try reflexivity;
    unfold store_step; destruct c; simpl;
    match goal with |- context [objects w !! ?k] => destruct (objects w !! k) end;
    simpl; try reflexivity; discriminate.
Qed.

Lemma k8s_healthy_create_conflict (c : api_call) (w : world) :
  responses w = [] ->
  match c with
  | patch_namespaced_config_map _ _ _ | patch_namespaced_stateful_set _ _ _ => True
  | _ => conflict (fst (k8s c w)) = true <-> is_Some (objects w !! call_key c)
  end.
Proof.
  intros Hr. unfold k8s. simpl. rewrite Hr.
  destruct c; simpl; try exact I;
    match goal with |- context [objects w !! ?k] => destruct (objects w !! k) eqn:E end;
    simpl; split; intros H; try discriminate; eauto; destruct H; discriminate.
Qed.

Lemma create_configmap_upsert (name ns data uid cm_type : string) (w : world) :
  client_loads w ->
  let body := configmap name ns data uid cm_type in
  let create := create_namespaced_config_map ns body in
  let patch := patch_namespaced_config_map (name +:+ "-" +:+ cm_type) ns body in
  (conflict (fst (k8s create w)) = true ->
   create_configmap name ns data uid cm_type w = k8s patch (snd (k8s create w))
   /\ new_calls w (snd (create_configmap name ns data uid cm_type w)) = [create; patch])
  /\ (conflict (fst (k8s create w)) = false ->
      new_calls w (snd (create_configmap name ns data uid cm_type w)) = [create]).
Proof.
  intros Hload body create patch. unfold create_configmap, mbind, M_bind.
  rewrite (get_k8s_client_loads w Hload).
  unfold except_ApiException, try_except. fold body. fold create. fold patch.
  pose proof (k8s_calls create w) as Hc.
  destruct (k8s create w) as [[[] | e] w1]; simpl in *.
  - split; [discriminate | intros _]. now apply new_calls_app.
  - destruct e; simpl;
      try (split; [discriminate | intros _]; now apply new_calls_app).
    destruct (status =? 409); simpl.
    + split; [intros _ | discriminate]. split; [reflexivity |].
      apply new_calls_app. rewrite k8s_calls, Hc, <- app_assoc. reflexivity.
    + split; [discriminate | intros _]. now apply new_calls_app.
Qed.

Lemma create_bind9_statefulset_upsert (spec : dict) (name ns uid : string) (w : world) :
  client_loads w ->
  let body := bind9_statefulset spec name ns uid in
  let create := create_namespaced_stateful_set ns body in
  let patch := patch_namespaced_stateful_set (name +:+ "-bind9") ns body in
  (conflict (fst (k8s create w)) = true ->
   create_bind9_statefulset spec name ns uid w = k8s patch (snd (k8s create w))
   /\ new_calls w (snd (create_bind9_statefulset spec name ns uid w)) = [create; patch])
  /\ (conflict (fst (k8s create w)) = false ->
      new_calls w (snd (create_bind9_statefulset spec name ns uid w)) = [create]).
Proof.
  intros Hload body create patch. unfold create_bind9_statefulset, mbind, M_bind.
  rewrite (get_k8s_client_loads w Hload).
  unfold except_ApiException, try_except, mbind, M_bind. fold body. fold create. fold patch.
  pose proof (k8s_calls create w) as Hc.
  destruct (k8s create w) as [[[] | e] w1]; simpl in *.
  - split; [discriminate | intros _]. now apply new_calls_app.
  - destruct e; simpl;
      try (split; [discriminate | intros _]; now apply new_calls_app).
    destruct (status =? 409); simpl.
    + split; [intros _ | discriminate]. split; [reflexivity |].
      apply new_calls_app. rewrite k8s_calls, Hc, <- app_assoc. reflexivity.
    + split; [discriminate | intros _]. now apply new_calls_app.
Qed.

Lemma create_bind9_services_create_only (name ns uid : string) (w : world) :
  client_loads w ->
  let create := create_namespaced_service ns (bind9_service name ns uid) in
  new_calls w (snd (create_bind9_services name ns uid w)) = [create]
  /\ (conflict (fst (k8s create w)) = true ->
      fst (create_bind9_services name ns uid w) = Return tt
      /\ objects (snd (create_bind9_services name ns uid w)) = objects w)
  /\ (conflict (fst (k8s create w)) = false ->
      fst (create_bind9_services name ns uid w) = fst (k8s create w)).
Proof.
  intros Hload create. unfold create_bind9_services, mbind, M_bind.
  rewrite (get_k8s_client_loads w Hload).
  unfold except_ApiException, try_except. fold create.
  pose proof (k8s_calls create w) as Hc.
  pose proof (k8s_conflict_keeps_objects create w) as Ho.
  destruct (k8s create w) as [[[] | e] w1]; simpl in *.
  - split; [now apply new_calls_app |]. split; [discriminate | reflexivity].
  - destruct e; simpl;
      try (split; [now apply new_calls_app |]; split; [discriminate | reflexivity]).
    destruct (status =? 409); simpl.
    + split; [now apply new_calls_app |]. split; [| discriminate].
      intros _. split; [reflexivity | now apply Ho].
    + split; [now apply new_calls_app |]. split; [discriminate | reflexivity].
Qed.

(** C5: with a client that loads, the ConfigMap and the StatefulSet are
    applied by a create that, exactly when the server answers with the
    conflict signal, is followed by a patch of the same identity, whose
    outcome is the outcome of the apply; the Service is applied by the
    create alone: on conflict it returns and the cluster holds what it
    held, and any other answer of the create, an error included, is the
    outcome of the apply.  On a server without failures the conflict
    signal is given exactly when the identity exists. *)
Theorem applier_upsert_and_create_only (spec : dict) (name ns data uid cm_type : string)
    (w : world) :
  client_loads w ->
  let cm_create := create_namespaced_config_map ns (configmap name ns data uid cm_type) in
  let cm_patch :=
    patch_namespaced_config_map (name +:+ "-" +:+ cm_type) ns
      (configmap name ns data uid cm_type) in
  let sts_create := create_namespaced_stateful_set ns (bind9_statefulset spec name ns uid) in
  let sts_patch :=
    patch_namespaced_stateful_set (name +:+ "-bind9") ns
      (bind9_statefulset spec name ns uid) in
  let svc_create := create_namespaced_service ns (bind9_service name ns uid) in
  (call_key cm_patch = call_key cm_create
   /\ (conflict (fst (k8s cm_create w)) = true ->
       create_configmap name ns data uid cm_type w = k8s cm_patch (snd (k8s cm_create w))
       /\ new_calls w (snd (create_configmap name ns data uid cm_type w))
          = [cm_create; cm_patch])
   /\ (conflict (fst (k8s cm_create w)) = false ->
       new_calls w (snd (create_configmap name ns data uid cm_type w)) = [cm_create]))
  /\ (call_key sts_patch = call_key sts_create
      /\ (conflict (fst (k8s sts_create w)) = true ->
          create_bind9_statefulset spec name ns uid w
          = k8s sts_patch (snd (k8s sts_create w))
          /\ new_calls w (snd (create_bind9_statefulset spec name ns uid w))
             = [sts_create; sts_patch])
      /\ (conflict (fst (k8s sts_create w)) = false ->
          new_calls w (snd (create_bind9_statefulset spec name ns uid w)) = [sts_create]))
  /\ (new_calls w (snd (create_bind9_services name ns uid w)) = [svc_create]
      /\ (conflict (fst (k8s svc_create w)) = true ->
          fst (create_bind9_services name ns uid w) = Return tt
          /\ objects (snd (create_bind9_services name ns uid w)) = objects w)
      /\ (conflict (fst (k8s svc_create w)) = false ->
          fst (create_bind9_services name ns uid w) = fst (k8s svc_create w)))
  /\ (responses w = [] ->
      (conflict (fst (k8s cm_create w)) = true <-> is_Some (objects w !! call_key cm_create))
      /\ (conflict (fst (k8s sts_create w)) = true
          <-> is_Some (objects w !! call_key sts_create))
      /\ (conflict (fst (k8s svc_create w)) = true
          <-> is_Some (objects w !! call_key svc_create))).
Proof.
  intros Hload. cbv zeta.
  split; [split; [reflexivity | now apply create_configmap_upsert] |].
  split; [split; [reflexivity | now apply create_bind9_statefulset_upsert] |].
  split; [now apply create_bind9_services_create_only |].
  intros Hr. repeat split;
    first [ apply (k8s_healthy_create_conflict (create_namespaced_config_map _ _) w Hr)
          | apply (k8s_healthy_create_conflict (create_namespaced_stateful_set _ _) w Hr)
          | apply (k8s_healthy_create_conflict (create_namespaced_service _ _) w Hr) ].
Qed.

Lemma applier_upsert_and_create_only_witness :
  let w := snd (create_bind9_instance [] "dns1" "default" "uid-1" empty_cluster) in
  new_calls w (snd (create_configmap "dns1" "default" "options {};" "uid-1" "config" w))
  = [ create_namespaced_config_map "default"
        (configmap "dns1" "default" "options {};" "uid-1" "config");
      patch_namespaced_config_map "dns1-config" "default"
        (configmap "dns1" "default" "options {};" "uid-1" "config") ].
Proof.
  intros w.
  edestruct (applier_upsert_and_create_only [] "dns1" "default" "options {};" "uid-1"
               "config" w) as [(_ & Hconflict & _) _].
  - vm_compute. reflexivity.
  - apply Hconflict. vm_compute. reflexivity.
Defined.

(** ** Ownership *)

Lemma artifacts_name_their_owner (spec : dict) (name ns data uid cm_type : string) :
  map (fun r => (or_kind r, or_name r, or_uid r))
    (om_owner_references (cm_metadata (configmap name ns data uid cm_type)))
  = [("Bind9Instance", name, uid)]
  /\ map (fun r => (or_kind r, or_name r, or_uid r))
       (om_owner_references (sts_metadata (bind9_statefulset spec name ns uid)))
     = [("Bind9Instance", name, uid)]
  /\ map (fun r => (or_kind r, or_name r, or_uid r))
       (om_owner_references (svc_metadata (bind9_service name ns uid)))
     = [("Bind9Instance", name, uid)].
Proof. repeat split. Qed.

(** C6: the reconciliation of the zone example-com, of uid uid-zone-1,
    creates the ConfigMap example-com-zone with one owner reference, of
    kind Bind9Instance, with the name and the uid of the zone: the
    reference that the ConfigMap of an instance of that name and uid
    carries. *)
Theorem zone_configmap_owner_is_an_instance_reference :
  exists body,
    new_calls empty_cluster
      (snd (manage_dns_zone [("zoneName", VStr "example.com")] "example-com" "default"
              "uid-zone-1" empty_cluster))
    = [create_namespaced_config_map "default" body]
    /\ om_name (cm_metadata body) = Some "example-com-zone"
    /\ om_owner_references (cm_metadata body)
       = [ {| or_api_version := "dns.example.com/v1alpha1";
              or_kind := "Bind9Instance";
              or_name := "example-com";
              or_uid := "uid-zone-1";
              or_controller := None;
              or_block_owner_deletion := None |} ]
    /\ om_owner_references (cm_metadata body)
       = om_owner_references
           (cm_metadata (configmap "example-com" "default" "" "uid-zone-1" "config")).
Proof. eexists. split; [vm_compute; reflexivity |]. repeat split. Qed.

(** ** Health daemon *)

Lemma waits_app (a b : list daemon_event) : waits (a ++ b) = waits a ++ waits b.
Proof. apply omap_app. Qed.

Lemma errors_logged_app (a b : list daemon_event) :
  errors_logged (a ++ b) = errors_logged a ++ errors_logged b.
Proof. apply omap_app. Qed.

Lemma waits_probe (name ns : string) (f1 f2 f3 : option exn) :
  waits (snd (test_dns_functionality name ns f1 f2 f3)) = [].
Proof. destruct f1, f2, f3; reflexivity. Qed.

Lemma errors_logged_probe (name ns : string) (c : cycle) :
  let result := test_dns_functionality name ns (resolver_failure c) (nameservers_failure c)
                  (query_failure c) in
  errors_logged (snd result)
  ++ errors_logged
       (if negb (fst result)
        then [Logged (error ("DNS functionality check failed for " +:+ name) None)]
        else [])
  = probe_errors name c.
Proof.
  unfold test_dns_functionality, probe_errors, probe_failure.
  destruct (resolver_failure c), (nameservers_failure c), (query_failure c); reflexivity.
Qed.

Lemma monitor_loop_waits (name ns : string) (script : list cycle) :
  Forall (fun c => wait_failure c = None) (cycles_run script) ->
  fst (monitor_loop name ns script) = Return tt
  /\ waits (snd (monitor_loop name ns script)) = map (fun _ => 60) (cycles_run script)
  /\ errors_logged (snd (monitor_loop name ns script))
     = flat_map (probe_errors name) (cycles_run script).
Proof.
  induction script as [| c script IH]; [repeat split |].
  cbn [monitor_loop cycles_run]. destruct (stop_set c); [repeat split |].
  intros Hrun. inversion Hrun as [| ? ? Hc Hrest]; subst.
  specialize (IH Hrest). rewrite Hc.
  pose proof (waits_probe name ns (resolver_failure c) (nameservers_failure c)
                (query_failure c)) as Hwaits.
  pose proof (errors_logged_probe name ns c) as Herrors. cbv zeta in Herrors.
  destruct (test_dns_functionality name ns (resolver_failure c) (nameservers_failure c)
              (query_failure c)) as [healthy probe].
  destruct (monitor_loop name ns script) as [r later].
  cbn [fst snd] in *. destruct IH as (-> & IHw & IHe).
  split; [reflexivity |]. cbn [flat_map map].
  rewrite !waits_app, !errors_logged_app, Hwaits, IHw, IHe, <- Herrors.
  split; [now destruct healthy | now rewrite <- app_assoc].
Qed.

Lemma monitor_loop_backoff (name ns : string) (script : list cycle) :
  In 120 (waits (snd (monitor_loop name ns script))) ->
  Exists (fun c => wait_failure c <> None) (cycles_run script).
Proof.
  induction script as [| c script IH]; [intros [] |].
  cbn [monitor_loop cycles_run]. destruct (stop_set c); [intros [] |].
  pose proof (waits_probe name ns (resolver_failure c) (nameservers_failure c)
                (query_failure c)) as Hprobe.
  destruct (test_dns_functionality name ns (resolver_failure c) (nameservers_failure c)
              (query_failure c)) as [healthy probe].
  cbn [snd] in Hprobe.
  destruct (monitor_loop name ns script) as [r later]. cbn [snd] in IH.
  destruct (wait_failure c) as [e |] eqn:Hwait.
  - intros _. left. rewrite Hwait. discriminate.
  - cbn [snd]. rewrite !waits_app, Hprobe.
    destruct healthy; cbn; (intros [H | H]; [discriminate H | right; exact (IH H)]).
Qed.

(** C9, counterexample: a cycle whose probe fails is followed by a wait of
    60, not of 120; the failure leaves two error records. *)
Lemma failed_probe_waits_60 :
  fst (test_dns_functionality "dns1" "default" (resolver_failure failed_probe)
         (nameservers_failure failed_probe) (query_failure failed_probe)) = false
  /\ waits (snd (monitor_bind9_health "dns1" "default" [failed_probe])) = [60]
  /\ length (errors_logged (snd (monitor_bind9_health "dns1" "default" [failed_probe])))
     = 2%nat.
Proof. repeat split. Qed.

(** C9, amended: as long as no wait of 60 raises, the daemon waits 60
    after the probe of every cycle it runs, whether the probe succeeded or
    failed, and it raises nothing; a failed probe is only logged, by one
    error record of the probe with the exception and then one of the
    daemon, and a probe that succeeds leaves no error record.  A wait of
    120 is taken only in a run with a cycle whose wait of 60 raised, which
    no failure of a probe brings about. *)
Theorem monitor_waits_60_every_cycle (name ns : string) (script : list cycle) :
  (Forall (fun c => wait_failure c = None) (cycles_run script) ->
   fst (monitor_bind9_health name ns script) = Return tt
   /\ waits (snd (monitor_bind9_health name ns script))
      = map (fun _ => 60) (cycles_run script)
   /\ errors_logged (snd (monitor_bind9_health name ns script))
      = flat_map (probe_errors name) (cycles_run script))
  /\ (In 120 (waits (snd (monitor_bind9_health name ns script))) ->
      Exists (fun c => wait_failure c <> None) (cycles_run script)).
Proof.
  unfold monitor_bind9_health.
  pose proof (monitor_loop_waits name ns script) as Hquiet.
  pose proof (monitor_loop_backoff name ns script) as Hbackoff.
  destruct (monitor_loop name ns script) as [r run]. cbn [fst snd] in *.
  split; [exact Hquiet | exact Hbackoff].
Qed.

Lemma monitor_waits_60_every_cycle_witness :
  waits (snd (monitor_bind9_health "dns1" "default" [failed_probe; failed_probe]))
  = [60; 60]
  /\ errors_logged (snd (monitor_bind9_health "dns1" "default" [failed_probe; failed_probe]))
     = [ error "DNS test failed: " (Some (OtherException "timed out"));
         error "DNS functionality check failed for dns1" None;
         error "DNS test failed: " (Some (OtherException "timed out"));
         error "DNS functionality check failed for dns1" None ].
Proof.
  destruct (monitor_waits_60_every_cycle "dns1" "default" [failed_probe; failed_probe])
    as [Hquiet _].
  destruct Hquiet as (_ & Hwaits & Herrors); [repeat constructor |].
  split; [exact Hwaits | exact Herrors].
Defined.

(** ** Further behaviour of the handlers *)

(** A failure of the create of a ConfigMap that is an [ApiException] with
    a status other than 409 is not raised by [create_configmap]. *)
Lemma create_configmap_drops_other_api_errors (name ns data uid cm_type : string)
    (w : world) (status : Z) :
  client_loads w ->
  fst (k8s (create_namespaced_config_map ns (configmap name ns data uid cm_type)) w)
  = Raise (ApiException status) ->
  status <> 409 ->
  fst (create_configmap name ns data uid cm_type w) = Return tt.
Proof.
  intros Hload Hanswer Hstatus. unfold create_configmap, mbind, M_bind.
  rewrite (get_k8s_client_loads w Hload).
  unfold except_ApiException, try_except.
  destruct (k8s _ w) as [r w1]. simpl in Hanswer. subst r. simpl.
  destruct (Z.eqb_spec status 409); [contradiction | reflexivity].
Qed.

(** An address that is no [str] makes the A-record check raise a
    [TypeError], which the record handler takes for a transient failure. *)
Lemma handle_record_address_not_a_string :
  fst (create_record_handler "A" [("ipv4Address", VInt 5)] "www" "default" empty_cluster)
  = Failed (TemporaryError "Record management failed: " TypeError 30).
Proof. reflexivity. Qed.

(** The zone file of the repository's test: the at sign of the contact is
    written as a dot. *)
Lemma generate_zone_file_test (now : datetime) :
  exists text,
    generate_zone_file now
      [ ("zoneName", VStr "example.com"); ("ttl", VInt 3600);
        ("soaRecord", VDict [ ("primaryNS", VStr "ns1.example.com.");
                              ("adminEmail", VStr "admin@example.com");
                              ("serial", VInt 2024010101) ]) ]
      (VStr "example.com") "default" = Return text
    /\ str_in "example.com" text = true
    /\ str_in "SOA" text = true
    /\ str_in "ns1.example.com." text = true
    /\ str_in "admin.example.com" text = true
    /\ str_in "@example.com" text = false.
Proof.
  unfold generate_zone_file. destruct (date_serial_total now) as [n ->].
  eexists. split; [reflexivity |]. vm_compute. auto.
Qed.
(** * Further properties of the code *)

(** ** Validator *)

(** X1: the A-record check returns normally exactly for the specs whose
    ipv4Address is a str made of four groups of one to three decimal
    digits joined by dots, with at most one line feed after them. *)
Theorem a_record_accepted_iff_dotted_quad (spec : dict) :
  validate_a_record spec = Return tt <->
  exists s, dict_lookup spec "ipv4Address" = Some (VStr s) /\ dotted_quad s.
Proof. apply (validate_a_record_accepts_exactly spec). Qed.

Lemma validate_a_record_raises (spec : dict) (e : exn) :
  validate_a_record spec = Raise e ->
  (e = TypeError
   /\ truthy (spec_get spec "ipv4Address") = true
   /\ forall s, spec_get spec "ipv4Address" <> VStr s)
  \/ (e = ValueError ("Invalid IPv4 address: " +:+ py_str (spec_get spec "ipv4Address"))
      /\ (truthy (spec_get spec "ipv4Address") = false
          \/ exists s, spec_get spec "ipv4Address" = VStr s
                       /\ Re.matches ipv4_pattern s = false)).
Proof.
  unfold validate_a_record.
  destruct (truthy (spec_get spec "ipv4Address")) eqn:Htruthy; simpl.
  - destruct (spec_get spec "ipv4Address") as [| b | n | s | items | entries] eqn:Hv;
      try (intros [= <-]; left; repeat split; discriminate).
    destruct (Re.matches ipv4_pattern s) eqn:Hm; simpl; [discriminate |].
    intros [= <-]. right. split; [reflexivity |]. right. eauto.
  - intros [= <-]. right. auto.
Qed.

(** X2: when the A-record check fails, it raises a TypeError exactly for
    an address that is true in a condition and is no str; in every other
    case it raises the ValueError whose text ends with the str of the
    address, None when the field is absent. *)
Theorem a_record_failure_classes (spec : dict) (e : exn) :
  validate_a_record spec = Raise e ->
  (e = TypeError
   /\ truthy (spec_get spec "ipv4Address") = true
   /\ forall s, spec_get spec "ipv4Address" <> VStr s)
  \/ (e = ValueError ("Invalid IPv4 address: " +:+ py_str (spec_get spec "ipv4Address"))
      /\ (truthy (spec_get spec "ipv4Address") = false
          \/ exists s, spec_get spec "ipv4Address" = VStr s
                       /\ Re.matches ipv4_pattern s = false)).
Proof. apply validate_a_record_raises. Qed.

Lemma a_record_failure_classes_witness :
  (TypeError = TypeError
   /\ truthy (spec_get [("ipv4Address", VInt 167772161)] "ipv4Address") = true
   /\ forall s, spec_get [("ipv4Address", VInt 167772161)] "ipv4Address" <> VStr s)
  \/ (TypeError
      = ValueError ("Invalid IPv4 address: "
                    +:+ py_str (spec_get [("ipv4Address", VInt 167772161)] "ipv4Address"))
      /\ (truthy (spec_get [("ipv4Address", VInt 167772161)] "ipv4Address") = false
          \/ exists s, spec_get [("ipv4Address", VInt 167772161)] "ipv4Address" = VStr s
                       /\ Re.matches ipv4_pattern s = false)).
Proof.
  apply (a_record_failure_classes [("ipv4Address", VInt 167772161)] TypeError).
  reflexivity.
Defined.

(** X3: an address of four digit groups followed by a line feed passes the
    A-record check: the pattern ends with a dollar, which also matches
    before a final line feed. *)
Theorem a_record_accepts_final_line_feed (a b c d : string) :
  digit_group a -> digit_group b -> digit_group c -> digit_group d ->
  validate_a_record
    [("ipv4Address", VStr (a +:+ "." +:+ b +:+ "." +:+ c +:+ "." +:+ d +:+ String LF ""))]
  = Return tt.
Proof.
  intros Ha Hb Hc Hd. apply (validate_a_record_accepts_exactly _).
  eexists. split; [reflexivity |].
  exists a, b, c, d, (String LF ""). auto 10.
Qed.

Lemma a_record_accepts_final_line_feed_witness :
  validate_a_record [("ipv4Address", VStr ("10.0.0.1" +:+ String LF ""))] = Return tt.
Proof.
  apply (a_record_accepts_final_line_feed "10" "0" "0" "1");
    (split; [reflexivity | simpl; lia]).
Defined.
(** ** Record, delete and failure paths of the handlers *)

Lemma validate_dns_record_outcomes (record_type : string) (spec : dict) :
  validate_dns_record record_type spec = Return tt
  \/ (exists msg, validate_dns_record record_type spec = Raise (ValueError msg))
  \/ (record_type = "A" /\ validate_dns_record record_type spec = Raise TypeError).
Proof.
  unfold validate_dns_record, validators. cbn [validators_get].
  destruct (String.eqb_spec "A" record_type) as [<- | _].
  - destruct (validate_a_record spec) as [[] | e] eqn:Hv; [auto |].
    destruct (validate_a_record_raises spec e Hv) as [[-> _] | [-> _]]; eauto.
  - destruct (String.eqb "AAAA" record_type).
    { unfold validate_aaaa_record.
      destruct (negb (truthy (spec_get spec "ipv6Address"))); eauto. }
    destruct (String.eqb "CNAME" record_type).
    { unfold validate_cname_record.
      destruct (negb (truthy (spec_get spec "target"))); eauto. }
    destruct (String.eqb "MX" record_type); [| auto].
    unfold validate_mx_record.
    destruct (negb (dict_has spec "priority") || negb (dict_has spec "mailServer")); eauto.
Qed.

(** X4: the handler of a record ends in one of three ways: it reports the
    record active, it raises the permanent error for a ValueError of the
    validation, or, for the type A only, it raises the temporary error with
    delay 30 for the TypeError of an address that is no str. *)
Theorem record_handler_outcomes (record_type : string) (spec : dict) (name ns : string)
    (w : world) :
  fst (create_record_handler record_type spec name ns w)
  = Done [("status", VStr "active"); ("recordType", VStr record_type)]
  \/ (exists msg,
        fst (create_record_handler record_type spec name ns w)
        = Failed (PermanentError "Invalid record: " (ValueError msg)))
  \/ (record_type = "A"
      /\ fst (create_record_handler record_type spec name ns w)
         = Failed (TemporaryError "Record management failed: " TypeError 30)).
Proof.
  unfold create_record_handler, handle_record_with, handler_try, lift, mbind, M_bind.
  destruct (validate_dns_record_outcomes record_type spec)
    as [-> | [[msg ->] | [-> ->]]]; simpl; eauto.
Qed.

(** X5: the handlers of a deleted instance, of a deleted zone and of a
    record make no call of the API and leave every object of the cluster
    as it was; the zone file of a record's zone is not written. *)
Theorem quiet_events_leave_cluster (ev : event) (w : world) :
  event_keys ev = [] ->
  calls (snd (dispatch ev w)) = calls w
  /\ objects (snd (dispatch ev w)) = objects w.
Proof.
  intros Hkeys. destruct (dispatch_evolves ev w) as [_ (l & Hcalls & Hl & Hframe)].
  rewrite Hkeys in Hl.
  assert (l = []) as ->.
  { destruct l as [| c l]; [reflexivity |]. inversion Hl as [| ? ? []]. }
  rewrite app_nil_r in Hcalls. split; [exact Hcalls |].
  apply map_eq. intros key. apply Hframe. constructor.
Qed.

Lemma quiet_events_leave_cluster_witness :
  calls (snd (dispatch (RecordChanged "A" [("ipv4Address", VStr "192.0.2.1");
                                            ("zone", VStr "example-com")]
                         "www" "default") empty_cluster))
  = [].
Proof.
  apply (quiet_events_leave_cluster
           (RecordChanged "A" [("ipv4Address", VStr "192.0.2.1"); ("zone", VStr "example-com")]
              "www" "default") empty_cluster).
  reflexivity.
Defined.

Lemma handler_try_failed (body : M dict) (classify : exn -> world -> kopf_error * world)
    (w : world) (err : kopf_error) :
  fst (handler_try body classify w) = Failed err ->
  exists e w', fst (classify e w') = err.
Proof.
  unfold handler_try. destruct (body w) as [[status | e] w1]; [discriminate |].
  destruct (classify e w1) as [err' w2] eqn:Hc. simpl. intros [= <-].
  exists e, w1. now rewrite Hc.
Qed.

(** X6: whatever fails in the handler of a created, resumed or updated
    instance or of a zone, the error raised is the temporary one with
    delay 30; these handlers never raise the permanent error. *)
Theorem instance_and_zone_failures_are_temporary (ev : event) (w : world)
    (err : kopf_error) :
  (forall record_type spec name ns, ev <> RecordChanged record_type spec name ns) ->
  fst (dispatch ev w) = Failed err ->
  exists context e, err = TemporaryError context e 30.
Proof.
  intros Hev.
  destruct ev as [spec name ns uid | spec name ns uid diff | spec name ns
                 | spec name ns uid | spec name ns | record_type spec name ns]; simpl;
    try discriminate;
    try (intros [e [w' <-]]%handler_try_failed; simpl; eauto).
  now destruct (Hev record_type spec name ns).
Qed.

Lemma instance_and_zone_failures_are_temporary_witness :
  exists context e,
    TemporaryError "BIND9 creation failed: " AttributeError 30
    = TemporaryError context e 30.
Proof.
  apply (instance_and_zone_failures_are_temporary
           (InstanceCreated [("config", VNone)] "dns1" "default" "uid-1") empty_cluster).
  - discriminate.
  - reflexivity.
Defined.
(** ** The date-coded serial *)

Lemma int_from_digit (c : ascii) (d acc : Z) (s : string) :
  digit_value c = Some d -> int_from acc (String c s) = int_from (10 * acc + d) s.
Proof. intros H. simpl. now rewrite H. Qed.

Lemma int_from_uint_acc (u : Decimal.uint) (p : positive) (rest : string) :
  int_from (Z.pos p) (NilEmpty.string_of_uint u +:+ rest)
  = int_from (Z.pos (Pos.of_uint_acc u p)) rest.
Proof.
  revert p. induction u; intros p; cbn [NilEmpty.string_of_uint Pos.of_uint_acc];
    [reflexivity | ..];
    match goal with
    | |- int_from _ (String ?c ?s +:+ rest) = _ =>
        change (String c s +:+ rest) with (String c (s +:+ rest));
        erewrite int_from_digit by (vm_compute; reflexivity)
    end;
    rewrite <- IHu; f_equal; lia.
Qed.

Lemma int_from_uint (u : Decimal.uint) (rest : string) :
  int_from 0 (NilEmpty.string_of_uint u +:+ rest)
  = int_from (Z.of_N (Pos.of_uint u)) rest.
Proof.
  induction u; cbn [NilEmpty.string_of_uint Pos.of_uint];
    [reflexivity | ..];
    match goal with
    | |- int_from _ (String ?c ?s +:+ rest) = _ =>
        change (String c s +:+ rest) with (String c (s +:+ rest));
        erewrite int_from_digit by (vm_compute; reflexivity)
    end;
    [exact IHu | ..];
    match goal with
    | |- int_from (10 * 0 + ?d) _ = _ =>
        change (10 * 0 + d) with (Z.pos (Z.to_pos d))
    end;
    apply int_from_uint_acc.
Qed.

(** Reading the digits of a number gives the number back. *)
Lemma int_from_str_of_int (n : nat) (rest : string) :
  int_from 0 (str_of_int (Z.of_nat n) +:+ rest) = int_from (Z.of_nat n) rest.
Proof.
  unfold str_of_int. destruct (Z.of_nat n) as [| p | p] eqn:E; [reflexivity | | lia].
  cbn [Z.to_int NilEmpty.string_of_int]. rewrite int_from_uint.
  now rewrite DecimalPos.Unsigned.of_to.
Qed.

Ltac two_digits_case :=
  match goal with
  | |- int_from _ (two_digits ?n +:+ _) = _ =>
      let s := eval vm_compute in (two_digits n) in
      change (two_digits n) with s;
      cbv [String.append];
      erewrite !int_from_digit by (vm_compute; reflexivity);
      f_equal; lia
  end.

Lemma int_from_two_digits (n : nat) (acc : Z) (rest : string) :
  (n < 100)%nat ->
  int_from acc (two_digits n +:+ rest) = int_from (100 * acc + Z.of_nat n) rest.
Proof.
  intros Hn. do 100 (destruct n as [| n]; [two_digits_case |]). lia.
Qed.

Lemma date_serial_value (now : datetime) :
  (month now < 100)%nat -> (day now < 100)%nat ->
  date_serial now
  = Return (Z.of_nat (year now) * 1000000 + Z.of_nat (month now) * 10000
            + Z.of_nat (day now) * 100 + 1).
Proof.
  intros Hm Hd. unfold date_serial, strftime_Ymd01, py_int.
  set (s := str_of_int (Z.of_nat (year now)) +:+ _).
  assert (Hne : s <> "") by (subst s; repeat apply append_nonempty; discriminate).
  destruct s eqn:Hs; [contradiction |]. rewrite <- Hs. subst s.
  rewrite int_from_str_of_int, !int_from_two_digits by assumption.
  cbv [String.append]. erewrite !int_from_digit by (vm_compute; reflexivity).
  simpl. f_equal. lia.
Qed.

(** X7: for a clock whose month and day have at most two digits, the
    default serial is the number written YYYYMMDD01; so, for months up to
    12 and days up to 31, a later calendar date gives a larger serial, and
    the time of day does not count. *)
Theorem date_serial_is_yyyymmdd01 (a b : datetime) :
  (month a <= 12)%nat -> (day a <= 31)%nat ->
  (month b <= 12)%nat -> (day b <= 31)%nat ->
  date_serial a
  = Return (Z.of_nat (year a) * 1000000 + Z.of_nat (month a) * 10000
            + Z.of_nat (day a) * 100 + 1)
  /\ (date_before a b ->
      exists n m, date_serial a = Return n /\ date_serial b = Return m /\ n < m).
Proof.
  intros Hma Hda Hmb Hdb.
  rewrite (date_serial_value a), (date_serial_value b) by lia.
  split; [reflexivity |]. intros Hbefore. do 2 eexists.
  split; [reflexivity |]. split; [reflexivity |].
  unfold date_before in Hbefore. nia.
Qed.

Lemma date_serial_is_yyyymmdd01_witness :
  date_serial new_year_2024 = Return 2024010101.
Proof.
  apply (date_serial_is_yyyymmdd01 new_year_2024 next_day_2024); simpl; lia.
Defined.

(** ** Client *)

(** X8: the client loads exactly when the cluster configuration loads
    inside a cluster or the local configuration loads; when it does not,
    the exception raised is the one of the local configuration, never the
    one of the cluster configuration; and asking for the client changes
    nothing. *)
Theorem get_k8s_client_falls_back (w : world) :
  (client_loads w <->
   (in_cluster w = true /\ incluster_config w = None) \/ kube_config w = None)
  /\ (forall e, fst (get_k8s_client w) = Raise e -> kube_config w = Some e)
  /\ snd (get_k8s_client w) = w.
Proof.
  unfold client_loads, get_k8s_client, try_except, load_config, raise.
  destruct (in_cluster w), (incluster_config w) as [e1 |], (kube_config w) as [e2 |];
    simpl; repeat split; intros; try discriminate; try congruence; auto;
    match goal with
    | H : _ \/ _ |- _ => destruct H as [[? ?] | ?]; discriminate
    end.
Qed.

(** ** Health daemon, the loop as a whole *)

Lemma queries_app (a b : list daemon_event) : queries (a ++ b) = queries a ++ queries b.
Proof. apply omap_app. Qed.

Lemma cycles_run_until_stop (script : list cycle) :
  Exists (fun c => stop_set c = true) script ->
  exists c after, script = cycles_run script ++ c :: after /\ stop_set c = true.
Proof.
  induction script as [| c script IH]; intros Hstop; [inversion Hstop |].
  cbn [cycles_run]. destruct (stop_set c) eqn:Hc; [now exists c, script |].
  inversion Hstop as [? ? Hhere | ? ? Hlater]; subst; [congruence |].
  destruct (IH Hlater) as (c' & after & Hsplit & Hc').
  exists c', after. split; [cbn [app]; now rewrite <- Hsplit | exact Hc'].
Qed.

Lemma monitor_loop_by_cycle (name ns : string) (script : list cycle) :
  Forall (fun c => wait_failure c = None \/ backoff_failure c = None) (cycles_run script) ->
  fst (monitor_loop name ns script) = Return tt
  /\ waits (snd (monitor_loop name ns script)) = map wait_of (cycles_run script)
  /\ queries (snd (monitor_loop name ns script))
     = map (fun _ => name +:+ "-dns." +:+ ns +:+ ".svc.cluster.local")
         (List.filter reaches_query (cycles_run script)).
Proof.
  induction script as [| c script IH]; [repeat split |].
  cbn [monitor_loop cycles_run]. destruct (stop_set c); [repeat split |].
  intros Hrun. inversion Hrun as [| ? ? Hc Hrest]; subst. specialize (IH Hrest).
  cbn [List.filter map]. unfold test_dns_functionality, reaches_query.
  destruct (monitor_loop name ns script) as [r later].
  cbn [fst snd] in IH. destruct IH as (-> & IHw & IHq).
  destruct (resolver_failure c) as [e0 |], (nameservers_failure c) as [e1 |],
    (query_failure c) as [e2 |], (wait_failure c) as [e3 |] eqn:Hw,
    (backoff_failure c) as [e4 |];
    try (destruct Hc; discriminate);
    cbn [fst snd negb map]; rewrite !waits_app, !queries_app, IHw, IHq;
    change (wait_of c) with (match wait_failure c with None => 60 | Some _ => 120 end);
    rewrite Hw; repeat split.
Qed.

(** X9: when some turn finds the stop flag set and none of the turns
    before the first such turn has both of its waits raising, the daemon
    returns at that turn, having run the turns before it; the wait of a
    turn it ran is 60, or 120 when the wait of 60 raised; and it queried
    the name server name-dns.namespace.svc.cluster.local once in every turn
    whose probe got as far as the query, the resolver made and given its
    name server without an exception, and in no other. *)
Theorem monitor_probes_and_waits_by_cycle (name ns : string) (script : list cycle) :
  Exists (fun c => stop_set c = true) script ->
  Forall (fun c => wait_failure c = None \/ backoff_failure c = None) (cycles_run script) ->
  (exists c after, script = cycles_run script ++ c :: after /\ stop_set c = true)
  /\ fst (monitor_bind9_health name ns script) = Return tt
  /\ waits (snd (monitor_bind9_health name ns script)) = map wait_of (cycles_run script)
  /\ queries (snd (monitor_bind9_health name ns script))
     = map (fun _ => name +:+ "-dns." +:+ ns +:+ ".svc.cluster.local")
         (List.filter reaches_query (cycles_run script)).
Proof.
  intros Hstop Hscript. split; [now apply cycles_run_until_stop |].
  unfold monitor_bind9_health.
  destruct (monitor_loop_by_cycle name ns script Hscript) as (Hr & Hw & Hq).
  destruct (monitor_loop name ns script) as [r run]. exact (conj Hr (conj Hw Hq)).
Qed.

Lemma monitor_probes_and_waits_by_cycle_witness :
  waits (snd (monitor_bind9_health "dns1" "default"
                [ failed_probe;
                  {| stop_set := false; resolver_failure := None;
                     nameservers_failure := Some (ValueError "not an IP address");
                     query_failure := None;
                     wait_failure := Some (OtherException "interrupted");
                     backoff_failure := None |};
                  {| stop_set := true; resolver_failure := None;
                     nameservers_failure := None; query_failure := None;
                     wait_failure := None; backoff_failure := None |} ]))
  = [60; 120]
  /\ queries (snd (monitor_bind9_health "dns1" "default"
                     [ failed_probe;
                       {| stop_set := false; resolver_failure := None;
                          nameservers_failure := Some (ValueError "not an IP address");
                          query_failure := None;
                          wait_failure := Some (OtherException "interrupted");
                          backoff_failure := None |};
                       {| stop_set := true; resolver_failure := None;
                          nameservers_failure := None; query_failure := None;
                          wait_failure := None; backoff_failure := None |} ]))
     = ["dns1-dns.default.svc.cluster.local"].
Proof.
  destruct (monitor_probes_and_waits_by_cycle "dns1" "default"
              [ failed_probe;
                {| stop_set := false; resolver_failure := None;
                   nameservers_failure := Some (ValueError "not an IP address");
                   query_failure := None;
                   wait_failure := Some (OtherException "interrupted");
                   backoff_failure := None |};
                {| stop_set := true; resolver_failure := None;
                   nameservers_failure := None; query_failure := None;
                   wait_failure := None; backoff_failure := None |} ])
    as (_ & _ & Hwaits & Hqueries).
  - right. right. left. reflexivity.
  - constructor; [left; reflexivity |].
    constructor; [right; reflexivity | constructor].
  - split; [exact Hwaits | exact Hqueries].
Defined.

(** X10: an exception leaves the daemon only from a turn it runs in
    which the wait of 60 raised and then the wait of 120 raised; it is the
    exception of the wait of 120. *)
Theorem monitor_raises_only_from_backoff (name ns : string) (script : list cycle)
    (e : exn) :
  fst (monitor_bind9_health name ns script) = Raise e ->
  Exists (fun c => wait_failure c <> None /\ backoff_failure c = Some e)
    (cycles_run script).
Proof.
  unfold monitor_bind9_health.
  destruct (monitor_loop name ns script) as [r run] eqn:Hrun. cbn [fst]. intros ->.
  revert run Hrun. induction script as [| c script IH]; intros run; [discriminate |].
  cbn [monitor_loop cycles_run]. destruct (stop_set c); [discriminate |].
  destruct (test_dns_functionality name ns (resolver_failure c) (nameservers_failure c)
              (query_failure c)) as [healthy probe].
  destruct (monitor_loop name ns script) as [r later].
  destruct (wait_failure c) as [e1 |] eqn:Hw.
  - destruct (backoff_failure c) as [e2 |] eqn:Hb.
    + intros [= -> _]. left. split; [rewrite Hw; discriminate | exact Hb].
    + intros [= -> _]. right. eapply IH. reflexivity.
  - intros [= -> _]. right. eapply IH. reflexivity.
Qed.

Lemma monitor_raises_only_from_backoff_witness :
  Exists (fun c => wait_failure c <> None
                   /\ backoff_failure c = Some (OtherException "shutting down"))
    (cycles_run
       [ {| stop_set := false; resolver_failure := None; nameservers_failure := None;
            query_failure := None;
            wait_failure := Some (OtherException "interrupted");
            backoff_failure := Some (OtherException "shutting down") |} ]).
Proof.
  apply (monitor_raises_only_from_backoff "dns1" "default"
           [ {| stop_set := false; resolver_failure := None; nameservers_failure := None;
                query_failure := None;
                wait_failure := Some (OtherException "interrupted");
                backoff_failure := Some (OtherException "shutting down") |} ]).
  reflexivity.
Defined.

(** X11: what the surroundings do after a turn that finds the stop flag
    set has no effect on the run: the daemon probes, waits and logs nothing
    more. *)
Theorem monitor_ignores_all_after_stop (name ns : string) (before after : list cycle)
    (c : cycle) :
  stop_set c = true ->
  monitor_bind9_health name ns (before ++ c :: after)
  = monitor_bind9_health name ns before.
Proof.
  intros Hstop. unfold monitor_bind9_health.
  assert (H : monitor_loop name ns (before ++ c :: after) = monitor_loop name ns before).
  { induction before as [| c0 before IH]; cbn [app monitor_loop].
    - now rewrite Hstop.
    - now rewrite IH. }
  now rewrite H.
Qed.

Lemma monitor_ignores_all_after_stop_witness :
  monitor_bind9_health "dns1" "default"
    ([failed_probe]
     ++ {| stop_set := true; resolver_failure := None; nameservers_failure := None;
           query_failure := None; wait_failure := None;
           backoff_failure := None |} :: [failed_probe; failed_probe])
  = monitor_bind9_health "dns1" "default" [failed_probe].
Proof.
  apply (monitor_ignores_all_after_stop "dns1" "default" [failed_probe]
           [failed_probe; failed_probe]).
  reflexivity.
Defined.
(** ** The applier on a server without failures *)

Lemma k8s_healthy (c : api_call) (w : world) :
  responses w = [] ->
  k8s c w = (fst (store_step c (objects w)),
             with_objects (with_calls w (calls w ++ [c])) (snd (store_step c (objects w)))).
Proof.
  intros Hr. unfold k8s. simpl. rewrite Hr. now destruct (store_step c (objects w)).
Qed.

Lemma healthy_step (w : world) (l : list api_call)
    (o : gmap (string * string * string) artifact) :
  healthy w -> healthy (with_objects (with_calls w l) o).
Proof.
  intros [Hr Hl]. split; [exact Hr |]. unfold client_loads.
  rewrite <- (client_loads_same_env w); [exact Hl | repeat split].
Qed.

Lemma healthy_emit (r : log_record) (w : world) : healthy w -> healthy (emit r w).
Proof.
  intros [Hr Hl]. split; [exact Hr |]. unfold client_loads.
  rewrite <- (client_loads_same_env w); [exact Hl | repeat split].
Qed.

Lemma store_step_spec (c : api_call) (o : gmap (string * string * string) artifact) :
  store_step c o
  = match o !! call_key c, is_patch c with
    | Some _, false => (Raise (ApiException 409), o)
    | None, false => (Return tt, <[call_key c := call_obj c]> o)
    | Some _, true => (Return tt, <[call_key c := call_obj c]> o)
    | None, true => (Raise (ApiException 404), o)
    end.
Proof.
  destruct c; cbn [store_step call_key call_obj is_patch];
    match goal with |- context [o !! ?k] => destruct (o !! k) end; reflexivity.
Qed.

(** A create on a server without failures. *)
Lemma k8s_healthy_create (c : api_call) (w : world) :
  responses w = [] -> is_patch c = false ->
  k8s c w
  = match objects w !! call_key c with
    | Some _ => (Raise (ApiException 409), with_calls w (calls w ++ [c]))
    | None =>
        (Return tt,
         with_objects (with_calls w (calls w ++ [c])) (<[call_key c := call_obj c]> (objects w)))
    end.
Proof.
  intros Hr Hc. rewrite (k8s_healthy c w Hr), store_step_spec, Hc.
  destruct (objects w !! call_key c); reflexivity.
Qed.

(** A patch on a server without failures, of an identity that exists. *)
Lemma k8s_healthy_patch (c : api_call) (w : world) (old : artifact) :
  responses w = [] -> is_patch c = true ->
  objects w !! call_key c = Some old ->
  k8s c w
  = (Return tt,
     with_objects (with_calls w (calls w ++ [c])) (<[call_key c := call_obj c]> (objects w))).
Proof.
  intros Hr Hc Hold. rewrite (k8s_healthy c w Hr), store_step_spec, Hc, Hold. reflexivity.
Qed.

Lemma create_configmap_healthy (name ns data uid cm_type : string) (w : world) :
  healthy w ->
  exists w',
    create_configmap name ns data uid cm_type w = (Return tt, w')
    /\ healthy w'
    /\ log w' = log w
    /\ objects w'
       = <[("ConfigMap", ns, name +:+ "-" +:+ cm_type)
           := ConfigMap (configmap name ns data uid cm_type)]> (objects w).
Proof.
  intros Hw. pose proof Hw as [Hr Hl]. unfold create_configmap, mbind, M_bind.
  rewrite (get_k8s_client_loads w Hl). unfold except_ApiException, try_except.
  rewrite (k8s_healthy_create (create_namespaced_config_map ns
                                 (configmap name ns data uid cm_type)) w Hr eq_refl).
  destruct (objects w !! call_key (create_namespaced_config_map ns
                                     (configmap name ns data uid cm_type)))
    as [old |] eqn:Hold.
  - change (409 =? 409) with true. cbn iota.
    erewrite k8s_healthy_patch; [| exact Hr | reflexivity | exact Hold].
    eexists. split; [reflexivity |].
    split; [| split; reflexivity].
    apply healthy_step. now apply (healthy_step w _ (objects w)).
  - eexists. split; [reflexivity |].
    split; [now apply healthy_step | split; reflexivity].
Qed.
Lemma create_bind9_statefulset_healthy (spec : dict) (name ns uid : string) (w : world) :
  healthy w ->
  exists w',
    create_bind9_statefulset spec name ns uid w = (Return tt, w')
    /\ healthy w'
    /\ objects w'
       = <[workload_key name ns := StatefulSet (bind9_statefulset spec name ns uid)]>
           (objects w).
Proof.
  intros Hw. pose proof Hw as [Hr Hl]. unfold create_bind9_statefulset, mbind, M_bind.
  rewrite (get_k8s_client_loads w Hl). unfold except_ApiException, try_except, mbind, M_bind.
  rewrite (k8s_healthy_create (create_namespaced_stateful_set ns
                                 (bind9_statefulset spec name ns uid)) w Hr eq_refl).
  destruct (objects w !! call_key (create_namespaced_stateful_set ns
                                     (bind9_statefulset spec name ns uid)))
    as [old |] eqn:Hold.
  - change (409 =? 409) with true. cbn iota.
    erewrite k8s_healthy_patch; [| exact Hr | reflexivity | exact Hold].
    eexists. split; [reflexivity |]. split; [| reflexivity].
    apply healthy_step. now apply (healthy_step w _ (objects w)).
  - eexists. split; [reflexivity |]. split; [| reflexivity].
    apply healthy_emit. now apply healthy_step.
Qed.

Lemma create_bind9_services_healthy (name ns uid : string) (w : world) :
  healthy w ->
  exists w',
    create_bind9_services name ns uid w = (Return tt, w')
    /\ healthy w'
    /\ objects w'
       = keep_or_insert (exposure_key name ns) (Service (bind9_service name ns uid))
           (objects w).
Proof.
  intros Hw. pose proof Hw as [Hr Hl]. unfold create_bind9_services, mbind, M_bind.
  rewrite (get_k8s_client_loads w Hl). unfold except_ApiException, try_except.
  rewrite (k8s_healthy_create (create_namespaced_service ns (bind9_service name ns uid))
             w Hr eq_refl).
  unfold keep_or_insert.
  change (exposure_key name ns)
    with (call_key (create_namespaced_service ns (bind9_service name ns uid))).
  destruct (objects w !! call_key (create_namespaced_service ns (bind9_service name ns uid)))
    as [old |].
  - change (negb (409 =? 409)) with false. cbn iota.
    eexists. split; [reflexivity |]. split; [| reflexivity].
    now apply (healthy_step w _ (objects w)).
  - eexists. split; [reflexivity |]. split; [| reflexivity].
    now apply healthy_step.
Qed.

Lemma create_bind9_instance_healthy (spec : dict) (name ns uid cfg : string) (w : world) :
  healthy w ->
  generate_bind9_config spec name ns = Return cfg ->
  exists w',
    create_bind9_instance spec name ns uid w
    = (Done [("phase", VStr "Ready");
             ("message", VStr "BIND9 instance created successfully")], w')
    /\ healthy w'
    /\ objects w' = instance_pass spec name ns cfg uid (objects w).
Proof.
  intros Hw Hgen. unfold create_bind9_instance, handler_try, mbind, M_bind, lift.
  rewrite Hgen.
  destruct (create_configmap_healthy name ns cfg uid "config"
              (emit (info ("Creating BIND9 instance " +:+ name)) w)
              (healthy_emit _ w Hw)) as (w1 & -> & Hw1 & _ & Ho1).
  destruct (create_bind9_statefulset_healthy spec name ns uid w1 Hw1) as (w2 & -> & Hw2 & Ho2).
  destruct (create_bind9_services_healthy name ns uid w2 Hw2) as (w3 & -> & Hw3 & Ho3).
  exists w3. split; [reflexivity |]. split; [exact Hw3 |].
  rewrite Ho3, Ho2, Ho1. reflexivity.
Qed.

Lemma keep_or_insert_lookup_ne (key key' : identity) (obj : artifact)
    (o : gmap (string * string * string) artifact) :
  key <> key' -> keep_or_insert key obj o !! key' = o !! key'.
Proof.
  intros Hne. unfold keep_or_insert. destruct (o !! key); [reflexivity |].
  now apply lookup_insert_ne.
Qed.

Lemma keep_or_insert_present (key : identity) (obj : artifact)
    (o : gmap (string * string * string) artifact) :
  is_Some (keep_or_insert key obj o !! key).
Proof.
  unfold keep_or_insert. destruct (o !! key) as [old |] eqn:E.
  - rewrite E. eauto.
  - rewrite lookup_insert_eq. eauto.
Qed.

Lemma keep_or_insert_idem (key : identity) (obj : artifact)
    (o : gmap (string * string * string) artifact) :
  is_Some (o !! key) -> keep_or_insert key obj o = o.
Proof. intros [old E]. unfold keep_or_insert. now rewrite E. Qed.

Lemma instance_pass_lookups (spec : dict) (name ns cfg uid : string)
    (o : gmap (string * string * string) artifact) :
  instance_pass spec name ns cfg uid o !! config_key name ns
  = Some (ConfigMap (configmap name ns cfg uid "config"))
  /\ instance_pass spec name ns cfg uid o !! workload_key name ns
     = Some (StatefulSet (bind9_statefulset spec name ns uid))
  /\ is_Some (instance_pass spec name ns cfg uid o !! exposure_key name ns).
Proof.
  unfold instance_pass. split; [| split].
  - rewrite keep_or_insert_lookup_ne by discriminate.
    rewrite lookup_insert_ne by discriminate. apply lookup_insert_eq.
  - rewrite keep_or_insert_lookup_ne by discriminate. apply lookup_insert_eq.
  - apply keep_or_insert_present.
Qed.

Lemma instance_pass_idem (spec : dict) (name ns cfg uid : string)
    (o : gmap (string * string * string) artifact) :
  instance_pass spec name ns cfg uid (instance_pass spec name ns cfg uid o)
  = instance_pass spec name ns cfg uid o.
Proof.
  destruct (instance_pass_lookups spec name ns cfg uid o) as (Hc & Hs & He).
  set (m := instance_pass spec name ns cfg uid o) in *.
  unfold instance_pass at 1.
  rewrite (insert_id m (config_key name ns)) by exact Hc.
  rewrite (insert_id m (workload_key name ns)) by exact Hs.
  now apply keep_or_insert_idem.
Qed.

(** X12: on a server without failures, the handler of a created or
    resumed instance whose configuration can be generated reports Ready and
    leaves in the cluster the ConfigMap name-config with the generated
    text, the StatefulSet name-bind9 and a Service name-dns; a second pass
    with the same spec reports Ready again and leaves the objects of the
    cluster as the first pass left them. *)
Theorem instance_reconciliation_is_idempotent (spec : dict) (name ns uid cfg : string)
    (w : world) :
  healthy w ->
  generate_bind9_config spec name ns = Return cfg ->
  let ready := Done [("phase", VStr "Ready");
                     ("message", VStr "BIND9 instance created successfully")] in
  let w1 := snd (create_bind9_instance spec name ns uid w) in
  let w2 := snd (create_bind9_instance spec name ns uid w1) in
  fst (create_bind9_instance spec name ns uid w) = ready
  /\ objects w1 !! config_key name ns = Some (ConfigMap (configmap name ns cfg uid "config"))
  /\ objects w1 !! workload_key name ns
     = Some (StatefulSet (bind9_statefulset spec name ns uid))
  /\ is_Some (objects w1 !! exposure_key name ns)
  /\ fst (create_bind9_instance spec name ns uid w1) = ready
  /\ objects w2 = objects w1.
Proof.
  intros Hw Hgen. cbv zeta.
  destruct (create_bind9_instance_healthy spec name ns uid cfg w Hw Hgen)
    as (w1 & -> & Hw1 & Ho1).
  cbn [fst snd].
  destruct (create_bind9_instance_healthy spec name ns uid cfg w1 Hw1 Hgen)
    as (w2 & -> & Hw2 & Ho2).
  cbn [fst snd]. rewrite Ho2, Ho1.
  destruct (instance_pass_lookups spec name ns cfg uid (objects w)) as (Hc & Hs & He).
  repeat split; try assumption. apply instance_pass_idem.
Qed.
Lemma instance_reconciliation_is_idempotent_witness :
  objects (snd (create_bind9_instance [("replicas", VInt 2)] "dns1" "default" "uid-1"
                  (snd (create_bind9_instance [("replicas", VInt 2)] "dns1" "default"
                          "uid-1" empty_cluster))))
  = objects (snd (create_bind9_instance [("replicas", VInt 2)] "dns1" "default" "uid-1"
                    empty_cluster)).
Proof.
  edestruct (instance_reconciliation_is_idempotent [("replicas", VInt 2)] "dns1" "default"
               "uid-1") as (_ & _ & _ & _ & _ & Hsame);
    [ | | exact Hsame ].
  - split; reflexivity.
  - reflexivity.
Defined.

(** X13: on a server without failures, [create_configmap] returns and the
    cluster then holds the ConfigMap it built under name-type, whether or
    not one was there before; every other object is as it was. *)
Theorem create_configmap_stores_the_body (name ns data uid cm_type : string) (w : world) :
  healthy w ->
  let w' := snd (create_configmap name ns data uid cm_type w) in
  fst (create_configmap name ns data uid cm_type w) = Return tt
  /\ objects w' !! ("ConfigMap", ns, name +:+ "-" +:+ cm_type)
     = Some (ConfigMap (configmap name ns data uid cm_type))
  /\ forall key, key <> ("ConfigMap", ns, name +:+ "-" +:+ cm_type) ->
                 objects w' !! key = objects w !! key.
Proof.
  intros Hw. cbv zeta.
  destruct (create_configmap_healthy name ns data uid cm_type w Hw) as (w' & -> & _ & _ & Ho).
  cbn [fst snd]. rewrite Ho. split; [reflexivity |]. split.
  - apply lookup_insert_eq.
  - intros key Hne. now apply lookup_insert_ne.
Qed.

Lemma create_configmap_stores_the_body_witness :
  objects (snd (create_configmap "dns1" "default" "options {};" "uid-1" "config"
                  empty_cluster))
  !! ("ConfigMap", "default", "dns1" +:+ "-" +:+ "config")
  = Some (ConfigMap (configmap "dns1" "default" "options {};" "uid-1" "config")).
Proof.
  apply (create_configmap_stores_the_body "dns1" "default" "options {};" "uid-1" "config"
           empty_cluster).
  split; reflexivity.
Defined.

(** X14: on a server without failures, [create_bind9_statefulset] returns
    and the cluster then holds the StatefulSet it built under name-bind9,
    whether or not one was there before; every other object is as it
    was. *)
Theorem create_bind9_statefulset_stores_the_body (spec : dict) (name ns uid : string)
    (w : world) :
  healthy w ->
  let w' := snd (create_bind9_statefulset spec name ns uid w) in
  fst (create_bind9_statefulset spec name ns uid w) = Return tt
  /\ objects w' !! workload_key name ns
     = Some (StatefulSet (bind9_statefulset spec name ns uid))
  /\ forall key, key <> workload_key name ns -> objects w' !! key = objects w !! key.
Proof.
  intros Hw. cbv zeta.
  destruct (create_bind9_statefulset_healthy spec name ns uid w Hw) as (w' & -> & _ & Ho).
  cbn [fst snd]. rewrite Ho. split; [reflexivity |]. split.
  - apply lookup_insert_eq.
  - intros key Hne. now apply lookup_insert_ne.
Qed.

Lemma create_bind9_statefulset_stores_the_body_witness :
  objects (snd (create_bind9_statefulset [("replicas", VInt 3)] "dns1" "default" "uid-1"
                  empty_cluster))
  !! workload_key "dns1" "default"
  = Some (StatefulSet (bind9_statefulset [("replicas", VInt 3)] "dns1" "default" "uid-1")).
Proof.
  apply (create_bind9_statefulset_stores_the_body [("replicas", VInt 3)] "dns1" "default"
           "uid-1" empty_cluster).
  split; reflexivity.
Defined.

(** X15: on a server without failures, [create_bind9_services] returns;
    when a Service name-dns exists, whatever it holds, the cluster is left
    as it was, and otherwise the Service built is added to it. *)
Theorem create_bind9_services_keeps_existing (name ns uid : string) (w : world) :
  healthy w ->
  let w' := snd (create_bind9_services name ns uid w) in
  fst (create_bind9_services name ns uid w) = Return tt
  /\ (forall old, objects w !! exposure_key name ns = Some old -> objects w' = objects w)
  /\ (objects w !! exposure_key name ns = None ->
      objects w'
      = <[exposure_key name ns := Service (bind9_service name ns uid)]> (objects w)).
Proof.
  intros Hw. cbv zeta.
  destruct (create_bind9_services_healthy name ns uid w Hw) as (w' & -> & _ & Ho).
  cbn [fst snd]. rewrite Ho. unfold keep_or_insert. split; [reflexivity |]. split.
  - intros old Hold. now rewrite Hold.
  - intros Hnone. now rewrite Hnone.
Qed.

Lemma create_bind9_services_keeps_existing_witness :
  objects (snd (create_bind9_services "dns1" "default" "uid-2"
                  (snd (create_bind9_services "dns1" "default" "uid-1" empty_cluster))))
  = objects (snd (create_bind9_services "dns1" "default" "uid-1" empty_cluster)).
Proof.
  edestruct (create_bind9_services_keeps_existing "dns1" "default" "uid-2"
               (snd (create_bind9_services "dns1" "default" "uid-1" empty_cluster)))
    as (_ & Hkept & _).
  - split; reflexivity.
  - eapply Hkept. vm_compute. reflexivity.
Defined.
(** ** Zone handler *)

(** X16: whenever the handler of a zone reports a status, the serial of
    the status is the date-coded serial of the clock, also when the spec
    gives soaRecord.serial and the zone file carries that one; the zone
    name of the status is the zoneName of the spec, None when absent. *)
Theorem zone_status_serial_is_date_coded (spec : dict) (name ns uid : string) (w : world)
    (status : dict) :
  fst (manage_dns_zone spec name ns uid w) = Done status ->
  exists n,
    date_serial (clock w) = Return n
    /\ status = [("phase", VStr "Active"); ("serial", VInt n);
                 ("zoneName", spec_get spec "zoneName")].
Proof.
  unfold manage_dns_zone, handler_try, mbind, M_bind, lift, reload_bind9_config,
    logger_info.
  cbn [clock emit with_log].
  destruct (generate_zone_file (clock w) spec (spec_get spec "zoneName") ns)
    as [text | e]; [| discriminate].
  destruct (create_configmap name ns text uid "zone" _) as [[[] | e] w1]; [| discriminate].
  destruct (date_serial (clock w)) as [n | e]; [| discriminate].
  cbn [fst]. intros [= <-]. eauto.
Qed.

Lemma zone_status_serial_is_date_coded_witness :
  exists n,
    date_serial (clock empty_cluster) = Return n
    /\ [("phase", VStr "Active"); ("serial", VInt 2024010101);
        ("zoneName", VStr "example.com")]
       = [("phase", VStr "Active"); ("serial", VInt n);
          ("zoneName",
           spec_get [("zoneName", VStr "example.com");
                     ("soaRecord", VDict [("serial", VInt 7)])] "zoneName")].
Proof.
  apply (zone_status_serial_is_date_coded
           [("zoneName", VStr "example.com"); ("soaRecord", VDict [("serial", VInt 7)])]
           "example-com" "default" "uid-zone-1" empty_cluster).
  vm_compute. reflexivity.
Defined.

Lemma manage_dns_zone_healthy (spec : dict) (name ns uid text : string) (w : world) :
  healthy w ->
  generate_zone_file (clock w) spec (spec_get spec "zoneName") ns = Return text ->
  exists w' n,
    manage_dns_zone spec name ns uid w
    = (Done [("phase", VStr "Active"); ("serial", VInt n);
             ("zoneName", spec_get spec "zoneName")], w')
    /\ healthy w'
    /\ clock w' = clock w
    /\ objects w'
       = <[zone_key name ns := ConfigMap (configmap name ns text uid "zone")]> (objects w)
    /\ log w'
       = log w ++ [ info ("Managing DNS zone " +:+ py_str (spec_get spec "zoneName"));
                    info ("Reloading BIND9 config for "
                          +:+ py_str (dict_get spec "bind9InstanceRef" (VStr "default"))) ].
Proof.
  intros Hw Hgen.
  unfold manage_dns_zone, handler_try, mbind, M_bind, lift, reload_bind9_config,
    logger_info.
  change (clock (emit ?r w)) with (clock w). rewrite Hgen.
  destruct (date_serial_total (clock w)) as [n Hn]. rewrite Hn.
  pose proof (create_configmap_evolves name ns text uid "zone"
                (emit (info ("Managing DNS zone " +:+ py_str (spec_get spec "zoneName"))) w))
    as [(_ & _ & _ & Hclock) _].
  destruct (create_configmap_healthy name ns text uid "zone"
              (emit (info ("Managing DNS zone " +:+ py_str (spec_get spec "zoneName"))) w)
              (healthy_emit _ w Hw)) as (w1 & Heq & Hw1 & Hlog & Ho).
  rewrite Heq in Hclock |- *. cbn [snd] in Hclock.
  eexists _, n. split; [reflexivity |].
  split; [now apply healthy_emit |].
  split; [symmetry; exact Hclock |].
  split; [exact Ho |].
  cbn [log emit with_log]. rewrite Hlog. cbn [log emit with_log].
  now rewrite <- app_assoc.
Qed.
(** X17: on a server without failures, the handler of a zone whose file
    can be generated leaves the ConfigMap name-zone holding the file under
    zone.conf, then logs the reload of the referenced instance, default
    when the spec names none; a second pass at the same clock leaves the
    objects of the cluster as the first left them. *)
Theorem zone_reconciliation_is_idempotent (spec : dict) (name ns uid text : string)
    (w : world) :
  healthy w ->
  generate_zone_file (clock w) spec (spec_get spec "zoneName") ns = Return text ->
  let w1 := snd (manage_dns_zone spec name ns uid w) in
  let w2 := snd (manage_dns_zone spec name ns uid w1) in
  objects w1 !! zone_key name ns = Some (ConfigMap (configmap name ns text uid "zone"))
  /\ cm_data (configmap name ns text uid "zone") = [("zone.conf", text)]
  /\ log w1
     = log w ++ [ info ("Managing DNS zone " +:+ py_str (spec_get spec "zoneName"));
                  info ("Reloading BIND9 config for "
                        +:+ py_str (dict_get spec "bind9InstanceRef" (VStr "default"))) ]
  /\ objects w2 = objects w1.
Proof.
  intros Hw Hgen. cbv zeta.
  destruct (manage_dns_zone_healthy spec name ns uid text w Hw Hgen)
    as (w1 & n & -> & Hw1 & Hclock & Ho1 & Hlog).
  cbn [snd]. rewrite <- Hclock in Hgen.
  destruct (manage_dns_zone_healthy spec name ns uid text w1 Hw1 Hgen)
    as (w2 & n' & -> & _ & _ & Ho2 & _).
  cbn [snd]. rewrite Ho2, Ho1. repeat split.
  - apply lookup_insert_eq.
  - exact Hlog.
  - apply insert_insert_eq.
Qed.

Lemma zone_reconciliation_is_idempotent_witness :
  objects (snd (manage_dns_zone [("zoneName", VStr "example.com")] "example-com" "default"
                  "uid-zone-1"
                  (snd (manage_dns_zone [("zoneName", VStr "example.com")] "example-com"
                          "default" "uid-zone-1" empty_cluster))))
  = objects (snd (manage_dns_zone [("zoneName", VStr "example.com")] "example-com" "default"
                    "uid-zone-1" empty_cluster)).
Proof.
  edestruct (zone_reconciliation_is_idempotent [("zoneName", VStr "example.com")]
               "example-com" "default" "uid-zone-1") as (_ & _ & _ & Hsame);
    [ | | exact Hsame ].
  - split; reflexivity.
  - vm_compute. reflexivity.
Defined.

(** ** Failures that the applier does not report *)

Lemma store_step_raise (c : api_call) (o : gmap (string * string * string) artifact)
    (e : exn) :
  fst (store_step c o) = Raise e -> snd (store_step c o) = o.
Proof.
  rewrite store_step_spec.
  destruct (o !! call_key c), (is_patch c); cbn [fst snd]; intros H;
    try reflexivity; discriminate H.
Qed.

Lemma k8s_raise_keeps_objects (c : api_call) (w : world) (e : exn) :
  fst (k8s c w) = Raise e -> objects (snd (k8s c w)) = objects w.
Proof.
  unfold k8s. cbn [responses with_calls objects].
  pose proof (store_step_raise c (objects w) e) as Hs.
  destruct (responses w) as [| [e' |] script]; try (intros _; reflexivity);
    destruct (store_step c (objects w)) as [r o]; cbn [fst snd] in *;
    intros H; cbn [objects with_objects]; now apply Hs.
Qed.

(** X18: when the server answers the create of a ConfigMap or of a
    StatefulSet with an ApiException whose status is not 409, the function
    returns as after a success: nothing is raised, no patch is tried, and
    the cluster holds what it held. *)
Theorem creates_drop_other_api_errors (spec : dict) (name ns data uid cm_type : string)
    (w : world) (status : Z) :
  client_loads w ->
  status <> 409 ->
  (fst (k8s (create_namespaced_config_map ns (configmap name ns data uid cm_type)) w)
   = Raise (ApiException status) ->
   fst (create_configmap name ns data uid cm_type w) = Return tt
   /\ new_calls w (snd (create_configmap name ns data uid cm_type w))
      = [create_namespaced_config_map ns (configmap name ns data uid cm_type)]
   /\ objects (snd (create_configmap name ns data uid cm_type w)) = objects w)
  /\ (fst (k8s (create_namespaced_stateful_set ns (bind9_statefulset spec name ns uid)) w)
      = Raise (ApiException status) ->
      fst (create_bind9_statefulset spec name ns uid w) = Return tt
      /\ new_calls w (snd (create_bind9_statefulset spec name ns uid w))
         = [create_namespaced_stateful_set ns (bind9_statefulset spec name ns uid)]
      /\ objects (snd (create_bind9_statefulset spec name ns uid w)) = objects w).
Proof.
  intros Hl Hstatus. split; intros Hanswer.
  - pose proof (k8s_raise_keeps_objects _ w _ Hanswer) as Ho.
    pose proof (k8s_calls (create_namespaced_config_map ns
                             (configmap name ns data uid cm_type)) w) as Hc.
    unfold create_configmap, mbind, M_bind. rewrite (get_k8s_client_loads w Hl).
    unfold except_ApiException, try_except.
    destruct (k8s _ w) as [r w1]. cbn [fst snd] in *. subst r.
    destruct (Z.eqb_spec status 409); [contradiction |]. cbn [fst snd mret M_ret].
    repeat split; [now apply new_calls_app | exact Ho].
  - pose proof (k8s_raise_keeps_objects _ w _ Hanswer) as Ho.
    pose proof (k8s_calls (create_namespaced_stateful_set ns
                             (bind9_statefulset spec name ns uid)) w) as Hc.
    unfold create_bind9_statefulset, mbind, M_bind. rewrite (get_k8s_client_loads w Hl).
    unfold except_ApiException, try_except, mbind, M_bind.
    destruct (k8s _ w) as [r w1]. cbn [fst snd] in *. subst r.
    destruct (Z.eqb_spec status 409); [contradiction |]. cbn [fst snd mret M_ret].
    repeat split; [now apply new_calls_app | exact Ho].
Qed.

Lemma creates_drop_other_api_errors_witness :
  fst (create_configmap "dns1" "default" "options {};" "uid-1" "config"
         (with_responses empty_cluster [Some (ApiException 403)]))
  = Return tt.
Proof.
  edestruct (creates_drop_other_api_errors [] "dns1" "default" "options {};" "uid-1"
               "config" (with_responses empty_cluster [Some (ApiException 403)]) 403)
    as [Hcm _].
  - reflexivity.
  - discriminate.
  - apply Hcm. reflexivity.
Defined.
Lemma k8s_scripted (c : api_call) (w : world) (e : exn) (script : list (option exn)) :
  responses w = Some e :: script ->
  k8s c w = (Raise e, with_responses (with_calls w (calls w ++ [c])) script).
Proof. intros Hr. unfold k8s. cbn [responses with_calls]. now rewrite Hr. Qed.

(** X19: when the server refuses the create of the ConfigMap and the
    create of the StatefulSet with statuses other than 409 and then works
    again, the handler of a created instance reports Ready although it
    applied neither: what the cluster holds under name-config and under
    name-bind9 is what it held, nothing if it held nothing. *)
Theorem instance_ready_with_nothing_applied (spec : dict) (name ns uid cfg : string)
    (w : world) (s1 s2 : Z) :
  client_loads w ->
  generate_bind9_config spec name ns = Return cfg ->
  responses w = [Some (ApiException s1); Some (ApiException s2)] ->
  s1 <> 409 -> s2 <> 409 ->
  let w' := snd (create_bind9_instance spec name ns uid w) in
  fst (create_bind9_instance spec name ns uid w)
  = Done [("phase", VStr "Ready"); ("message", VStr "BIND9 instance created successfully")]
  /\ objects w' !! config_key name ns = objects w !! config_key name ns
  /\ objects w' !! workload_key name ns = objects w !! workload_key name ns.
Proof.
  intros Hl Hgen Hr H1 H2. cbv zeta.
  set (w0 := emit (info ("Creating BIND9 instance " +:+ name)) w).
  assert (Hl0 : client_loads w0).
  { unfold client_loads. rewrite <- (client_loads_same_env w); [exact Hl | repeat split]. }
  unfold create_bind9_instance, handler_try, mbind, M_bind, lift. rewrite Hgen. fold w0.
  (* the ConfigMap step *)
  unfold create_configmap, mbind, M_bind. rewrite (get_k8s_client_loads w0 Hl0).
  unfold except_ApiException, try_except.
  rewrite (k8s_scripted _ w0 _ _ Hr).
  destruct (Z.eqb_spec s1 409); [contradiction |]. cbn [mret M_ret].
  set (w1 := with_responses _ [Some (ApiException s2)]).
  assert (Hl1 : client_loads w1).
  { unfold client_loads. rewrite <- (client_loads_same_env w); [exact Hl | repeat split]. }
  (* the StatefulSet step *)
  unfold create_bind9_statefulset, mbind, M_bind. rewrite (get_k8s_client_loads w1 Hl1).
  unfold except_ApiException, try_except, mbind, M_bind.
  rewrite (k8s_scripted _ w1 (ApiException s2) [] eq_refl).
  destruct (Z.eqb_spec s2 409); [contradiction |]. cbn [mret M_ret].
  set (w2 := with_responses _ []).
  assert (Hw2 : healthy w2).
  { split; [reflexivity |]. unfold client_loads.
    rewrite <- (client_loads_same_env w); [exact Hl | repeat split]. }
  (* the Service step *)
  destruct (create_bind9_services_healthy name ns uid w2 Hw2) as (w3 & -> & _ & Ho).
  cbn [fst snd mret M_ret]. rewrite Ho. split; [reflexivity |].
  split; rewrite keep_or_insert_lookup_ne by discriminate; reflexivity.
Qed.

Lemma instance_ready_with_nothing_applied_witness :
  objects (snd (create_bind9_instance [] "dns1" "default" "uid-1"
                  (with_responses empty_cluster
                     [Some (ApiException 403); Some (ApiException 500)])))
  !! config_key "dns1" "default"
  = objects (with_responses empty_cluster
               [Some (ApiException 403); Some (ApiException 500)])
    !! config_key "dns1" "default".
Proof.
  let cfg := eval vm_compute in
              (match generate_bind9_config [] "dns1" "default" with
               | Return text => text
               | Raise _ => ""
               end) in
  edestruct (instance_ready_with_nothing_applied [] "dns1" "default" "uid-1" cfg
               (with_responses empty_cluster
                  [Some (ApiException 403); Some (ApiException 500)]) 403 500)
    as (_ & Hconfig & _);
    [ | | | | | exact Hconfig ].
  - reflexivity.
  - reflexivity.
  - reflexivity.
  - discriminate.
  - discriminate.
Defined.

(** ** Specs from which nothing can be generated *)

(** X20: when the configuration of an instance cannot be generated, the
    handlers of a created and of an updated instance raise the temporary
    error with that exception and delay 30 without any call of the API:
    the world differs from the one they started in by log records only. *)
Theorem instance_handlers_stop_before_any_call (spec : dict) (name ns uid : string)
    (diff : list diff_item) (w : world) (e : exn) :
  generate_bind9_config spec name ns = Raise e ->
  create_bind9_instance spec name ns uid w
  = (Failed (TemporaryError "BIND9 creation failed: " e 30),
     emit (error "Failed to create BIND9 instance: " (Some e))
       (emit (info ("Creating BIND9 instance " +:+ name)) w))
  /\ update_bind9_instance spec name ns uid diff w
     = (Failed (TemporaryError "Update failed: " e 30),
        emit (info ("Updating BIND9 instance " +:+ name)) w).
Proof.
  intros Hgen.
  unfold create_bind9_instance, update_bind9_instance, handler_try, mbind, M_bind, lift.
  rewrite Hgen. split; reflexivity.
Qed.

Lemma instance_handlers_stop_before_any_call_witness :
  calls (snd (create_bind9_instance [("config", VDict [("allowQuery", VInt 0)])] "dns1"
                "default" "uid-1" empty_cluster))
  = [].
Proof.
  edestruct (instance_handlers_stop_before_any_call
               [("config", VDict [("allowQuery", VInt 0)])] "dns1" "default" "uid-1" []
               empty_cluster) as [Hcreate _].
  - reflexivity.
  - rewrite Hcreate. reflexivity.
Defined.
(** ** Names that no handler creates, and the entries of a diff *)

Lemma targets_event_service (ev : event) (c : api_call) (ns n : string) :
  targets (event_keys ev) c ->
  call_key c = ("Service", ns, n) ->
  n = event_name ev +:+ "-dns" /\ str_endswith n "-headless" = false.
Proof.
  unfold targets. intros Hin Hkey. rewrite Hkey in Hin.
  assert (Hdns : forall name, str_endswith (name +:+ "-dns") "-headless" = false).
  { intros name. unfold str_endswith. rewrite str_rev_app. reflexivity. }
  destruct ev; simpl in *;
    unfold config_key, zone_key, workload_key, exposure_key in Hin;
    intuition; try discriminate;
    match goal with H : (_, _, _) = (_, _, _) |- _ => injection H as ? ?; subst end;
    auto.
Qed.

(** X21: the StatefulSet of an instance names name-headless as its
    governing service, and every Service that a handler sends to the
    cluster, on any event, is name-dns: no handler creates a Service whose
    name ends in -headless. *)
Theorem headless_service_is_never_applied (spec : dict) (name ns uid : string)
    (ev : event) (w : world) :
  ss_service_name (sts_spec (bind9_statefulset spec name ns uid)) = name +:+ "-headless"
  /\ Forall (fun c => forall ns' n,
                 call_key c = ("Service", ns', n) ->
                 n = event_name ev +:+ "-dns" /\ str_endswith n "-headless" = false)
       (new_calls w (snd (dispatch ev w))).
Proof.
  split; [reflexivity |].
  destruct (dispatch_evolves ev w) as [_ (l & Hcalls & Hl & _)].
  rewrite (new_calls_app _ _ _ Hcalls).
  eapply Forall_impl; [exact Hl |].
  intros c Hc ns' n. now apply targets_event_service.
Qed.

(** X22: when the first entry of the diff is no triple, the handler of an
    updated instance fails with the temporary error of delay 30 built from
    the ValueError of the unpacking, whatever the rest of the diff says;
    this happens after the ConfigMap step, and no StatefulSet is sent. *)
Theorem update_fails_on_entry_of_other_arity (spec : dict) (name ns uid cfg : string)
    (item : diff_item) (rest : list diff_item) (w : world) :
  length item <> 3%nat ->
  generate_bind9_config spec name ns = Return cfg ->
  fst (create_configmap name ns cfg uid "config"
         (emit (info ("Updating BIND9 instance " +:+ name)) w)) = Return tt ->
  let run := update_bind9_instance spec name ns uid (item :: rest) w in
  (exists msg, fst run = Failed (TemporaryError "Update failed: " (ValueError msg) 30))
  /\ head (new_calls w (snd run))
     = Some (create_namespaced_config_map ns (configmap name ns cfg uid "config"))
  /\ Forall (targets [config_key name ns]) (new_calls w (snd run)).
Proof.
  intros Hitem Hgen Hcm. cbv zeta.
  set (w0 := emit (info ("Updating BIND9 instance " +:+ name)) w) in *.
  pose proof (create_configmap_returns_loads _ _ _ _ _ _ Hcm) as Hload.
  destruct (create_configmap_calls name ns cfg uid "config" w0 Hload) as (l1 & Hcalls1).
  pose proof (create_configmap_evolves name ns cfg uid "config" w0) as Hev.
  assert (Hany : exists msg, any_workload_field (item :: rest) = Raise (ValueError msg)).
  { destruct item as [| a [| b [| c [| d item]]]]; simpl in *; eauto; lia. }
  destruct Hany as [msg Hany].
  unfold update_bind9_instance, handler_try, mbind, M_bind, lift.
  rewrite Hgen. fold w0.
  destruct (create_configmap name ns cfg uid "config" w0) as [r w1].
  cbn [fst snd] in *. subst r. rewrite Hany. cbn [fst snd].
  destruct Hev as [_ (l & Hl & Htargets & _)].
  change (calls w0) with (calls w) in *.
  rewrite (new_calls_app w w1 l Hl).
  split; [eauto |]. split; [| exact Htargets].
  rewrite Hl in Hcalls1. apply app_inv_head in Hcalls1. now rewrite Hcalls1.
Qed.

Lemma update_fails_on_entry_of_other_arity_witness :
  exists msg,
    fst (update_bind9_instance [("replicas", VInt 3)] "dns1" "default" "uid-1"
           ([VStr "change"; VList [VStr "spec"; VStr "replicas"]; VInt 1; VInt 3] :: [])
           empty_cluster)
    = Failed (TemporaryError "Update failed: " (ValueError msg) 30).
Proof.
  edestruct (update_fails_on_entry_of_other_arity [("replicas", VInt 3)] "dns1"
               "default" "uid-1") as [Hfails _];
    [ | | | exact Hfails ].
  - simpl. lia.
  - reflexivity.
  - vm_compute. reflexivity.
Defined.
(** ** The clauses of the generated texts *)

Lemma prefix_app (x post : string) : String.prefix x (x +:+ post) = true.
Proof.
  induction x as [| c x IH]; [now destruct post |].
  change (String c x +:+ post) with (String c (x +:+ post)). cbn [String.prefix].
  destruct (ascii_dec c c); [exact IH | congruence].
Qed.

Lemma occurs_here (N : string -> string) (hay post : string) :
  hay = N post -> occurs_as N hay.
Proof. intros ->. now exists "", post. Qed.

Lemma occurs_cons (N : string -> string) (c : ascii) (s : string) :
  occurs_as N s -> occurs_as N (String c s).
Proof. intros (pre & post & ->). now exists (String c pre), post. Qed.

Lemma occurs_app (N : string -> string) (a b : string) :
  occurs_as N b -> occurs_as N (a +:+ b).
Proof.
  intros (pre & post & ->). exists (a +:+ pre), post. symmetry. apply str_app_assoc.
Qed.

Lemma occurs_str_in (needle : string) (N : string -> string) (hay : string) :
  (forall post, needle +:+ post = N post) ->
  occurs_as N hay -> str_in needle hay = true.
Proof.
  intros HN (pre & post & ->). rewrite <- HN.
  apply str_in_app_r, str_in_here, prefix_app.
Qed.

(** Walks down a text until it reads as the shape sought. *)
Ltac walk :=
  repeat first
    [ eapply occurs_here; reflexivity
    | apply occurs_cons
    | apply occurs_app ].

(** Finds a needle with unknown pieces, given its shape. *)
Ltac find_shape N :=
  apply (occurs_str_in _ N);
  [ intros ?; rewrite ?str_app_assoc; reflexivity | walk ].

Lemma generate_bind9_config_parts (spec : dict) (name ns text : string) :
  generate_bind9_config spec name ns = Return text ->
  exists config allow_query allow_transfer dnssec,
    dict_get spec "config" (VDict []) = VDict config
    /\ py_join " " (dict_get config "allowQuery" (VList [VStr "any"])) = Return allow_query
    /\ py_join " " (dict_get config "allowTransfer" (VList [VStr "none"]))
       = Return allow_transfer
    /\ dict_get config "dnssec" (VDict []) = VDict dnssec
    /\ str_format BIND9_CONFIG_TEMPLATE
         [ ("instance_name", VStr name);
           ("allow_query", VStr allow_query);
           ("allow_transfer", VStr allow_transfer);
           ("recursion",
            VStr (if truthy (dict_get config "recursion" (VBool false))
                  then "yes" else "no"));
           ("dnssec_validation",
            VStr (if truthy (dict_get dnssec "enabled" (VBool false))
                  then "auto" else "no")) ]
       = Return text.
Proof.
  unfold generate_bind9_config. cbv zeta.
  destruct (dict_get spec "config" (VDict [])) as [| | | | | config] eqn:Hc;
    try discriminate.
  cbn [py_get mbind res_bind].
  destruct (py_join " " (dict_get config "allowQuery" (VList [VStr "any"])))
    as [allow_query |] eqn:Hq; [| discriminate].
  cbn [mbind res_bind].
  destruct (py_join " " (dict_get config "allowTransfer" (VList [VStr "none"])))
    as [allow_transfer |] eqn:Ht; [| discriminate].
  cbn [mbind res_bind].
  destruct (dict_get config "dnssec" (VDict [])) as [| | | | | dnssec] eqn:Hd;
    try discriminate.
  cbn [py_get mbind res_bind]. intros Htext.
  exists config, allow_query, allow_transfer, dnssec. auto 10.
Qed.

(** X23: every text that [generate_bind9_config] returns carries the
    instance name in its first comment line, the entries of allowQuery and
    of allowTransfer joined by spaces in the two ACL clauses, any and none
    when absent, recursion yes or no by the truth of recursion, and
    dnssec-validation auto or no by the truth of dnssec.enabled. *)
Theorem generate_bind9_config_clauses (spec : dict) (name ns text : string) :
  generate_bind9_config spec name ns = Return text ->
  exists config allow_query allow_transfer dnssec,
    dict_get spec "config" (VDict []) = VDict config
    /\ py_join " " (dict_get config "allowQuery" (VList [VStr "any"])) = Return allow_query
    /\ py_join " " (dict_get config "allowTransfer" (VList [VStr "none"]))
       = Return allow_transfer
    /\ dict_get config "dnssec" (VDict []) = VDict dnssec
    /\ str_in ("// Generated BIND9 configuration for " +:+ name +:+ String LF "") text
       = true
    /\ str_in ("allow-query { " +:+ allow_query +:+ "; };") text = true
    /\ str_in ("allow-transfer { " +:+ allow_transfer +:+ "; };") text = true
    /\ str_in ("recursion "
               +:+ (if truthy (dict_get config "recursion" (VBool false))
                    then "yes" else "no") +:+ ";") text = true
    /\ str_in ("dnssec-validation "
               +:+ (if truthy (dict_get dnssec "enabled" (VBool false))
                    then "auto" else "no") +:+ ";") text = true.
Proof.
  intros Hgen.
  destruct (generate_bind9_config_parts spec name ns text Hgen)
    as (config & allow_query & allow_transfer & dnssec & Hc & Hq & Ht & Hd & Htext).
  exists config, allow_query, allow_transfer, dnssec.
  do 4 (split; [assumption |]).
  destruct (truthy (dict_get config "recursion" (VBool false))),
    (truthy (dict_get dnssec "enabled" (VBool false)));
    vm_compute in Htext; injection Htext as <-;
    (split; [find_shape (fun post => "// Generated BIND9 configuration for "
                                     +:+ (name +:+ (String LF "" +:+ post))) |]);
    (split; [find_shape (fun post => "allow-query { "
                                     +:+ (allow_query +:+ ("; };" +:+ post))) |]);
    (split; [find_shape (fun post => "allow-transfer { "
                                     +:+ (allow_transfer +:+ ("; };" +:+ post))) |]);
    split; find_needle.
Qed.

Lemma generate_bind9_config_clauses_witness :
  exists config allow_query allow_transfer dnssec,
    dict_get test_instance_spec "config" (VDict []) = VDict config
    /\ py_join " " (dict_get config "allowQuery" (VList [VStr "any"])) = Return allow_query
    /\ py_join " " (dict_get config "allowTransfer" (VList [VStr "none"]))
       = Return allow_transfer
    /\ dict_get config "dnssec" (VDict []) = VDict dnssec
    /\ str_in ("// Generated BIND9 configuration for " +:+ "test-instance" +:+ String LF "")
         test_instance_text = true
    /\ str_in ("allow-query { " +:+ allow_query +:+ "; };") test_instance_text = true
    /\ str_in ("allow-transfer { " +:+ allow_transfer +:+ "; };") test_instance_text = true
    /\ str_in ("recursion "
               +:+ (if truthy (dict_get config "recursion" (VBool false))
                    then "yes" else "no") +:+ ";") test_instance_text = true
    /\ str_in ("dnssec-validation "
               +:+ (if truthy (dict_get dnssec "enabled" (VBool false))
                    then "auto" else "no") +:+ ";") test_instance_text = true.
Proof.
  apply (generate_bind9_config_clauses test_instance_spec "test-instance" "default"
           test_instance_text).
  vm_compute. reflexivity.
Defined.
Lemma format_from_text (c : ascii) (rest : string) (kwargs : dict) :
  format_from (String c rest) None kwargs
  = if Ascii.eqb c "{" then
      match rest with
      | String c2 rest' =>
          if Ascii.eqb c2 "{"
          then tail ← format_from rest' None kwargs; Return (String "{" tail)
          else format_from rest (Some "") kwargs
      | "" => format_from rest (Some "") kwargs
      end
    else if Ascii.eqb c "}" then
      match rest with
      | String c2 rest' =>
          if Ascii.eqb c2 "}"
          then tail ← format_from rest' None kwargs; Return (String "}" tail)
          else Raise (ValueError "Single '}' encountered in format string")
      | "" => Raise (ValueError "Single '}' encountered in format string")
      end
    else tail ← format_from rest None kwargs; Return (String c tail).
Proof.
  cbn [format_from].
  destruct (Ascii.eqb c "{"); [| destruct (Ascii.eqb c "}")];
    destruct rest as [| c2 rest']; try reflexivity;
    destruct c2 as [[] [] [] [] [] [] [] []]; reflexivity.
Qed.

Lemma dict_lookup_rendered (kwargs : dict) (name : string) :
  dict_lookup (rendered kwargs) name
  = match dict_lookup kwargs name with
    | Some v => Some (VStr (py_str v))
    | None => None
    end.
Proof.
  induction kwargs as [| [k v] kwargs IH]; [reflexivity |].
  cbn [rendered map dict_lookup fst snd]. destruct (String.eqb k name); [reflexivity |].
  exact IH.
Qed.

(** A format reads its keyword arguments through their [str] only. *)
Lemma format_from_rendered (kwargs : dict) (n : nat) :
  forall (template : string) (field : option string),
    (String.length template <= n)%nat ->
    format_from template field (rendered kwargs) = format_from template field kwargs.
Proof.
  induction n as [| n IH]; intros template field Hlen.
  - destruct template; [| simpl in Hlen; lia]. now destruct field.
  - destruct template as [| c rest]; [now destruct field |].
    cbn [String.length] in Hlen.
    assert (Hrest : forall f, format_from rest f (rendered kwargs) = format_from rest f kwargs)
      by (intros f; apply IH; lia).
    destruct field as [name |].
    + cbn [format_from]. destruct (Ascii.eqb c "}"); [| apply Hrest].
      rewrite dict_lookup_rendered, Hrest.
      destruct (dict_lookup kwargs name); reflexivity.
    + rewrite !format_from_text.
      destruct rest as [| c2 rest'];
        [ rewrite !Hrest; reflexivity | ].
      cbn [String.length] in Hlen.
      assert (Hrest' : format_from rest' None (rendered kwargs)
                       = format_from rest' None kwargs) by (apply IH; lia).
      rewrite !Hrest, Hrest'. reflexivity.
Qed.

Lemma str_format_rendered (template : string) (kwargs : dict) :
  str_format template kwargs = str_format template (rendered kwargs).
Proof.
  unfold str_format. symmetry.
  now apply (format_from_rendered kwargs (String.length template)).
Qed.
Lemma generate_zone_file_parts (now : datetime) (spec : dict) (zone_name : value)
    (ns text : string) :
  generate_zone_file now spec zone_name ns = Return text ->
  exists soa admin n,
    dict_get spec "soaRecord" (VDict []) = VDict soa
    /\ dict_get soa "adminEmail" (VStr ("admin." +:+ py_str zone_name +:+ ".")) = VStr admin
    /\ date_serial now = Return n
    /\ str_format ZONE_FILE_TEMPLATE
         [ ("zone_name", zone_name);
           ("ttl", dict_get spec "ttl" (VInt 3600));
           ("primary_ns",
            dict_get soa "primaryNS" (VStr ("ns1." +:+ py_str zone_name +:+ ".")));
           ("admin_email", VStr (str_replace_char "@" "." admin));
           ("serial", dict_get soa "serial" (VInt n));
           ("refresh", dict_get soa "refresh" (VInt 3600));
           ("retry", dict_get soa "retry" (VInt 600));
           ("expire", dict_get soa "expire" (VInt 604800));
           ("minimum", dict_get soa "negativeTTL" (VInt 86400)) ]
       = Return text.
Proof.
  unfold generate_zone_file. cbv zeta.
  destruct (date_serial now) as [n |] eqn:Hn; [| discriminate].
  cbn [mbind res_bind].
  destruct (dict_get spec "soaRecord" (VDict [])) as [| | | | | soa] eqn:Hsoa;
    try discriminate.
  cbn [py_get mbind res_bind].
  destruct (dict_get soa "adminEmail" (VStr ("admin." +:+ py_str zone_name +:+ ".")))
    as [| | | admin | |] eqn:Hadmin; try discriminate.
  cbn [py_replace mbind res_bind]. intros Htext.
  exists soa, admin, n. auto 10.
Qed.

(** X24: every text that [generate_zone_file] returns has the origin line
    of the zone name, the TTL line, 3600 when the spec gives none, the SOA
    line with the primary name server and the contact, whose at signs are
    written as dots, and the five timer lines, each with the value of
    soaRecord or its default: the date-coded serial, 3600, 600, 604800 and
    86400. *)
Theorem generate_zone_file_clauses (now : datetime) (spec : dict) (zone_name : value)
    (ns text : string) :
  generate_zone_file now spec zone_name ns = Return text ->
  exists soa admin n,
    dict_get spec "soaRecord" (VDict []) = VDict soa
    /\ dict_get soa "adminEmail" (VStr ("admin." +:+ py_str zone_name +:+ ".")) = VStr admin
    /\ date_serial now = Return n
    /\ str_in ("$ORIGIN " +:+ py_str zone_name +:+ "." +:+ String LF "") text = true
    /\ str_in ("$TTL " +:+ py_str (dict_get spec "ttl" (VInt 3600)) +:+ String LF "") text
       = true
    /\ str_in ("@ IN SOA "
               +:+ py_str (dict_get soa "primaryNS"
                             (VStr ("ns1." +:+ py_str zone_name +:+ ".")))
               +:+ " " +:+ str_replace_char "@" "." admin +:+ " (") text = true
    /\ str_in ("    " +:+ py_str (dict_get soa "serial" (VInt n)) +:+ "    ; Serial") text
       = true
    /\ str_in ("    " +:+ py_str (dict_get soa "refresh" (VInt 3600)) +:+ "   ; Refresh")
         text = true
    /\ str_in ("    " +:+ py_str (dict_get soa "retry" (VInt 600)) +:+ "     ; Retry") text
       = true
    /\ str_in ("    " +:+ py_str (dict_get soa "expire" (VInt 604800)) +:+ "    ; Expire")
         text = true
    /\ str_in ("    " +:+ py_str (dict_get soa "negativeTTL" (VInt 86400))
               +:+ "   ; Negative TTL") text = true.
Proof.
  intros Hgen.
  destruct (generate_zone_file_parts now spec zone_name ns text Hgen)
    as (soa & admin & n & Hsoa & Hadmin & Hn & Htext).
  exists soa, admin, n. do 3 (split; [assumption |]).
  rewrite str_format_rendered in Htext. cbn [rendered map fst snd] in Htext.
  change (py_str (VStr ?s)) with s in Htext.
  clear Hgen Hsoa Hadmin Hn. revert Htext.
  generalize (py_str (dict_get soa "primaryNS" (VStr ("ns1." +:+ py_str zone_name +:+ ".")))).
  generalize (py_str zone_name).
  generalize (py_str (dict_get spec "ttl" (VInt 3600))).
  generalize (str_replace_char "@" "." admin).
  generalize (py_str (dict_get soa "serial" (VInt n))).
  generalize (py_str (dict_get soa "refresh" (VInt 3600))).
  generalize (py_str (dict_get soa "retry" (VInt 600))).
  generalize (py_str (dict_get soa "expire" (VInt 604800))).
  generalize (py_str (dict_get soa "negativeTTL" (VInt 86400))).
  intros minimum expire retry refresh serial admin_email ttl origin primary Htext.
  vm_compute in Htext. injection Htext as <-.
  split; [find_shape (fun post => "$ORIGIN " +:+ (origin
                                  +:+ ("." +:+ (String LF "" +:+ post)))) |].
  split; [find_shape (fun post => "$TTL " +:+ (ttl +:+ (String LF "" +:+ post))) |].
  split; [find_shape (fun post => "@ IN SOA " +:+ (primary +:+ (" " +:+ (admin_email
                                  +:+ (" (" +:+ post))))) |].
  split; [find_shape (fun post => "    " +:+ (serial +:+ ("    ; Serial" +:+ post))) |].
  split; [find_shape (fun post => "    " +:+ (refresh +:+ ("   ; Refresh" +:+ post))) |].
  split; [find_shape (fun post => "    " +:+ (retry +:+ ("     ; Retry" +:+ post))) |].
  split; [find_shape (fun post => "    " +:+ (expire +:+ ("    ; Expire" +:+ post))) |].
  find_shape (fun post => "    " +:+ (minimum +:+ ("   ; Negative TTL" +:+ post))).
Qed.
Lemma generate_zone_file_clauses_witness :
  exists soa admin n,
    dict_get test_zone_spec "soaRecord" (VDict []) = VDict soa
    /\ dict_get soa "adminEmail" (VStr ("admin." +:+ py_str (VStr "example.com") +:+ "."))
       = VStr admin
    /\ date_serial new_year_2024 = Return n
    /\ str_in ("$ORIGIN " +:+ py_str (VStr "example.com") +:+ "." +:+ String LF "")
         test_zone_text = true
    /\ str_in ("$TTL " +:+ py_str (dict_get test_zone_spec "ttl" (VInt 3600))
               +:+ String LF "") test_zone_text = true
    /\ str_in ("@ IN SOA "
               +:+ py_str (dict_get soa "primaryNS"
                             (VStr ("ns1." +:+ py_str (VStr "example.com") +:+ ".")))
               +:+ " " +:+ str_replace_char "@" "." admin +:+ " (") test_zone_text = true
    /\ str_in ("    " +:+ py_str (dict_get soa "serial" (VInt n)) +:+ "    ; Serial")
         test_zone_text = true
    /\ str_in ("    " +:+ py_str (dict_get soa "refresh" (VInt 3600)) +:+ "   ; Refresh")
         test_zone_text = true
    /\ str_in ("    " +:+ py_str (dict_get soa "retry" (VInt 600)) +:+ "     ; Retry")
         test_zone_text = true
    /\ str_in ("    " +:+ py_str (dict_get soa "expire" (VInt 604800)) +:+ "    ; Expire")
         test_zone_text = true
    /\ str_in ("    " +:+ py_str (dict_get soa "negativeTTL" (VInt 86400))
               +:+ "   ; Negative TTL") test_zone_text = true.
Proof.
  apply (generate_zone_file_clauses new_year_2024 test_zone_spec (VStr "example.com")
           "default" test_zone_text).
  vm_compute. reflexivity.
Defined.

(** X25: when the file of a zone cannot be generated, the handler of the
    zone raises the temporary error with that exception and delay 30
    without any call of the API and without the reload: the world differs
    from the one it started in by its first log record only. *)
Theorem zone_handler_stops_before_any_call (spec : dict) (name ns uid : string)
    (w : world) (e : exn) :
  generate_zone_file (clock w) spec (spec_get spec "zoneName") ns = Raise e ->
  manage_dns_zone spec name ns uid w
  = (Failed (TemporaryError "Zone management failed: " e 30),
     emit (info ("Managing DNS zone " +:+ py_str (spec_get spec "zoneName"))) w).
Proof.
  intros Hgen. unfold manage_dns_zone, handler_try, mbind, M_bind, lift.
  change (clock (emit ?r w)) with (clock w). now rewrite Hgen.
Qed.

Lemma zone_handler_stops_before_any_call_witness :
  manage_dns_zone [("zoneName", VStr "example.com"); ("soaRecord", VStr "ns1")]
    "example-com" "default" "uid-zone-1" empty_cluster
  = (Failed (TemporaryError "Zone management failed: " AttributeError 30),
     emit (info ("Managing DNS zone "
                 +:+ py_str (spec_get [("zoneName", VStr "example.com");
                                       ("soaRecord", VStr "ns1")] "zoneName")))
       empty_cluster).
Proof.
  apply (zone_handler_stops_before_any_call
           [("zoneName", VStr "example.com"); ("soaRecord", VStr "ns1")]
           "example-com" "default" "uid-zone-1" empty_cluster AttributeError).
  reflexivity.
Defined.

(** ** Update of an instance on a server without failures *)

(** X26: on a server without failures, the handler of an updated
    instance whose diff is made of triples reports Ready and leaves the
    ConfigMap name-config with the text generated from the new spec; the
    StatefulSet name-bind9 is the one built from the new spec when the diff
    has an entry for replicas, image or resources, and is untouched
    otherwise; the Service is never touched. *)
Theorem update_applies_the_new_spec (spec : dict) (name ns uid cfg : string)
    (diff : list diff_item) (w : world) :
  healthy w ->
  Forall is_triple diff ->
  generate_bind9_config spec name ns = Return cfg ->
  let w' := snd (update_bind9_instance spec name ns uid diff w) in
  fst (update_bind9_instance spec name ns uid diff w)
  = Done [("phase", VStr "Ready"); ("message", VStr "Updated successfully")]
  /\ objects w' !! config_key name ns = Some (ConfigMap (configmap name ns cfg uid "config"))
  /\ (touches_workload diff ->
      objects w' !! workload_key name ns
      = Some (StatefulSet (bind9_statefulset spec name ns uid)))
  /\ (~ touches_workload diff ->
      objects w' !! workload_key name ns = objects w !! workload_key name ns)
  /\ objects w' !! exposure_key name ns = objects w !! exposure_key name ns.
Proof.
  intros Hw Htriples Hgen. cbv zeta.
  destruct (any_workload_field_spec diff Htriples) as (needed & Hany & Hiff).
  destruct (create_configmap_healthy name ns cfg uid "config"
              (emit (info ("Updating BIND9 instance " +:+ name)) w)
              (healthy_emit _ w Hw)) as (w1 & Hcm & Hw1 & _ & Ho1).
  rewrite (update_bind9_instance_run spec name ns uid cfg diff w w1 needed Hgen Hcm Hany).
  change (objects (emit ?r w)) with (objects w) in Ho1.
  destruct needed.
  - destruct (create_bind9_statefulset_healthy spec name ns uid w1 Hw1)
      as (w2 & -> & _ & Ho2).
    cbn [fst snd]. rewrite Ho2, Ho1. split; [reflexivity |].
    split; [rewrite lookup_insert_ne by discriminate; apply lookup_insert_eq |].
    split; [intros _; apply lookup_insert_eq |].
    split; [intros Hnot; exfalso; apply Hnot, Hiff; reflexivity |].
    now rewrite !lookup_insert_ne by discriminate.
  - cbn [fst snd]. rewrite Ho1. split; [reflexivity |].
    split; [apply lookup_insert_eq |].
    split; [intros Htouched; apply Hiff in Htouched; discriminate |].
    split; [intros _ |]; now rewrite lookup_insert_ne by discriminate.
Qed.

Lemma update_applies_the_new_spec_witness :
  objects (snd (update_bind9_instance [("replicas", VInt 3)] "dns1" "default" "uid-1"
                  [[VStr "replicas"; VInt 1; VInt 3]] empty_cluster))
  !! workload_key "dns1" "default"
  = Some (StatefulSet (bind9_statefulset [("replicas", VInt 3)] "dns1" "default" "uid-1")).
Proof.
  edestruct (update_applies_the_new_spec [("replicas", VInt 3)] "dns1" "default" "uid-1")
    as (_ & _ & Htouched & _);
    [ | | | apply Htouched ].
  - split; reflexivity.
  - repeat constructor.
  - reflexivity.
  - left. exists (VInt 1), (VInt 3). now left.
Defined.
